(** * Job orchestration and reconciliation engine (delicious-lotus backend)

    A shallow embedding of
    - [app/api/v1/replicate.py]: [extract_result_from_output],
      [store_job_metadata], [publish_job_update], [get_ai_job_status],
      [generate_video_clips] and [replicate_webhook];
    - [fastapi_app/services/replicate_service.py]:
      [ReplicateService.generate_video_clips];
    - [fastapi_app/api/routes/v1.py]: the status and progress part of
      [get_generation];
    together with the properties of the reconciliation design that hold, or
    fail, on that code.

    Modelling conventions.
    - JSON payloads and Python dictionaries are values of [value]; a
      dictionary is an association list in insertion order, as Python keeps
      it.  Python's [None] is [VNone].
    - Redis is a finite map from keys to JSON values: [json.dumps] followed by
      [json.loads] is taken to be the identity, every write carries the same
      24 hour expiry and time does not pass, and the connection is taken to
      be available.
    - Handlers are programs over the operations they perform on the outside
      world (Redis commands, provider calls, the import queue, [uuid4], the
      clock, error logging).  [run] executes a program in one piece;
      [interleave] executes two programs command by command, as two
      processes sharing one Redis do.  Info-level logging is left out. *)

From Stdlib Require Import QArith.
From stdpp Require Import base option list strings pretty gmap.

Local Open Scope string_scope.
Local Open Scope list_scope.

#[local] Set Warnings "-clear-no-such-hyp".

(** ** JSON values and Python dictionaries *)

#[warnings="-register-all"]
Inductive value : Type :=
| VNone
| VBool (b : bool)
| VNum (z : Z)
| VStr (s : string)
| VList (items : list value)
| VDict (fields : list (string * value)).

Abbreviation dict := (list (string * value)).

(** Python truthiness, as used by [if x:], [not x] and [x or y]. *)
Definition truthy (v : value) : bool :=
  match v with
  | VNone => false
  | VBool b => b
  | VNum z => negb (Z.eqb z 0)
  | VStr s => negb (String.eqb s "")
  | VList l => match l with [] => false | _ => true end
  | VDict d => match d with [] => false | _ => true end
  end.

(** [a or b] *)
Definition py_or (a b : value) : value := if truthy a then a else b.

(** [str | None] seen as a JSON value. *)
Definition of_opt (o : option string) : value :=
  match o with Some s => VStr s | None => VNone end.

(** [if s:] for [s : str | None]. *)
Definition nonempty (o : option string) : bool :=
  match o with Some s => negb (String.eqb s "") | None => false end.

(** [d.get(k)] with the key looked up; [None] when the key is missing. *)
Fixpoint dict_get (d : dict) (k : string) : option value :=
  match d with
  | [] => None
  | (k', v) :: rest => if String.eqb k' k then Some v else dict_get rest k
  end.

(** [d.get(k, dflt)] *)
Definition get_default (d : dict) (k : string) (dflt : value) : value :=
  default dflt (dict_get d k).

(** [d.get(k)] *)
Definition get (d : dict) (k : string) : value := get_default d k VNone.

(** [d[k] = v]: an existing key keeps its position, a new key goes last. *)
Fixpoint dict_set (d : dict) (k : string) (v : value) : dict :=
  match d with
  | [] => [(k, v)]
  | (k', v') :: rest =>
      if String.eqb k' k then (k', v) :: rest else (k', v') :: dict_set rest k v
  end.

(** [{**d, k1: v1, ..., kn: vn}] *)
Definition dict_update (d : dict) (kvs : dict) : dict :=
  fold_left (fun acc kv => dict_set acc kv.1 kv.2) kvs d.

(** [x == "s"] for a JSON value [x]. *)
Definition is_str (v : value) (s : string) : bool :=
  match v with VStr s' => String.eqb s' s | _ => false end.

(** [isinstance(v, str) and v.startswith("http")] *)
Definition is_http_str (v : value) : option string :=
  match v with
  | VStr s => if String.prefix "http" s then Some s else None
  | _ => None
  end.

(** ** Output Normalizer *)

Definition url_keys : list string := ["url"; "video"; "mp4"; "download_url"].

(** The first loop of the dictionary case: the priority keys, in order. *)
Fixpoint first_url_key (keys : list string) (output : dict) : option string :=
  match keys with
  | [] => None
  | key :: rest =>
      match is_http_str (get output key) with
      | Some u => Some u
      | None => first_url_key rest output
      end
  end.

(** The second loop: every value of the dictionary, in insertion order. *)
Fixpoint first_url_value (fields : dict) : option string :=
  match fields with
  | [] => None
  | (_, v) :: rest =>
      match is_http_str v with
      | Some u => Some u
      | None => first_url_value rest
      end
  end.

(** [extract_result_from_output]: the result URL and the payload kept for
    audit.  A number or a boolean is none of [str], [list], [dict] and falls
    to the last [return None, None]. *)
Fixpoint extract_result_from_output (output : value) : option string * value :=
  match output with
  | VNone => (None, VNone)
  | VStr s => (Some s, output)
  | VList items =>
      (fix scan (l : list value) : option string * value :=
         match l with
         | [] => (None, output)
         | item :: rest =>
             let url := (extract_result_from_output item).1 in
             if nonempty url then (url, output) else scan rest
         end) items
  | VDict fields =>
      match first_url_key url_keys fields with
      | Some u => (Some u, output)
      | None =>
          match first_url_value fields with
          | Some u => (Some u, output)
          | None => (None, output)
          end
      end
  | _ => (None, VNone)
  end.

(** ** The outside world and the programs acting on it *)

Record prediction := {
  pred_id : string;
  pred_status : string;
  pred_output : value;
  pred_error : option string;
}.

Inductive import_kind := VideoImport | ImageImport.

(** The arguments of [enqueue_video_import] and [enqueue_image_import]. *)
Record import_request := {
  imp_kind : import_kind;
  imp_url : value;
  imp_name : string;
  imp_user_id : string;
  imp_asset_id : string;
  imp_metadata : dict;
}.

(** The arguments of [broadcast_clip_completed]. *)
Record clip_broadcast := {
  bc_generation_id : value;
  bc_clip_id : value;
  bc_thumbnail_url : option string;
  bc_duration : value;
}.

(** The arguments of [generation_storage_service.update_generation]. *)
Record generation_update := {
  gu_generation_id : string;
  gu_status : string;
  gu_video_results : option (list dict);
}.

Inductive log_level := LogWarning | LogError.

(** The operations a handler performs; the index is the type of the answer.
    A call that may raise answers with a sum: the exception text on the
    left, the result on the right. *)
Inductive op : Type -> Type :=
| RedisGet (key : string) : op (option value)
| RedisExists (key : string) : op bool
| RedisSetex (key : string) (ttl : Z) (v : value) : op unit
| RedisPublish (channel : string) (message : value) : op unit
| Getenv (name : string) : op (option string)
| PredictionsGet (job_id : string) : op (string + prediction)
| PredictionsCreate (model : string) (input : dict) (webhook : option string)
    : op (string + prediction)
| EnqueueImport (req : import_request) : op (string + string)
| Uuid4 : op string
| Now : op string
| Log (lvl : log_level) (msg : string) : op unit
| BroadcastClipCompleted (b : clip_broadcast) : op unit
| UpdateGeneration (u : generation_update) : op unit.

Inductive prog (A : Type) : Type :=
| Ret (a : A)
| Vis {X : Type} (e : op X) (k : X -> prog A).

Arguments Ret {A} a.
Arguments Vis {A X} e k.

Fixpoint bind {A B : Type} (m : prog A) (f : A -> prog B) : prog B :=
  match m with
  | Ret a => f a
  | Vis e k => Vis e (fun x => bind (k x) f)
  end.

Definition call {X : Type} (e : op X) : prog X := Vis e Ret.

Notation "'let*' x ':=' m 'in' k" := (bind m (fun x => k))
  (at level 10, x pattern, m at level 100, k at level 200).

(** What the handlers cannot decide themselves.  The behaviour of the
    provider and of the import queue is a function of the number of calls
    made before, so that a call can fail and its retry succeed. *)
Record env := {
  environ : string -> option string;
  predictions_get : nat -> string -> string + prediction;
  predictions_create : nat -> dict -> string + prediction;
  enqueue : nat -> import_request -> string + string;
  uuid4 : nat -> string;
  now : string;
}.

(** What has been done to the world besides the Redis writes. *)
Inductive event :=
| EvPublish (channel : string) (message : value)
| EvQuery (job_id : string)
| EvSubmit (input : dict)
| EvEnqueue (req : import_request) (outcome : string + string)
| EvUuid
| EvLog (lvl : log_level) (msg : string)
| EvBroadcast (b : clip_broadcast)
| EvGenerationUpdate (u : generation_update).

Record world := {
  redis : gmap string value;
  history : list event;
}.

Definition record (w : world) (ev : event) : world :=
  {| redis := redis w; history := history w ++ [ev] |}.

(** The provider status queries made so far. *)
Definition provider_queries (h : list event) : list string :=
  omap (fun ev => match ev with EvQuery j => Some j | _ => None end) h.

(** The provider submissions made so far. *)
Definition provider_submissions (h : list event) : list dict :=
  omap (fun ev => match ev with EvSubmit i => Some i | _ => None end) h.

(** Every call of an enqueue function so far, failed or not. *)
Definition enqueue_attempts (h : list event) : list import_request :=
  omap (fun ev => match ev with EvEnqueue r _ => Some r | _ => None end) h.

(** The import jobs that were put on the queue. *)
Definition import_queue (h : list event) : list import_request :=
  omap (fun ev => match ev with EvEnqueue r (inr _) => Some r | _ => None end) h.

Definition uuids_drawn (h : list event) : nat :=
  length (omap (fun ev => match ev with EvUuid => Some tt | _ => None end) h).

Definition logged (h : list event) : list (log_level * string) :=
  omap (fun ev => match ev with EvLog l m => Some (l, m) | _ => None end) h.

Definition handle (E : env) {X : Type} (e : op X) (w : world) : X * world :=
  match e in op X return X * world with
  | RedisGet key => (redis w !! key, w)
  | RedisExists key =>
      (match redis w !! key with Some _ => true | None => false end, w)
  | RedisSetex key _ v =>
      (tt, {| redis := <[key := v]> (redis w); history := history w |})
  | RedisPublish channel message => (tt, record w (EvPublish channel message))
  | Getenv name => (environ E name, w)
  | PredictionsGet job_id =>
      (predictions_get E (length (provider_queries (history w))) job_id,
       record w (EvQuery job_id))
  | PredictionsCreate _ input _ =>
      (predictions_create E (length (provider_submissions (history w))) input,
       record w (EvSubmit input))
  | EnqueueImport req =>
      let r := enqueue E (length (enqueue_attempts (history w))) req in
      (r, record w (EvEnqueue req r))
  | Uuid4 => (uuid4 E (uuids_drawn (history w)), record w EvUuid)
  | Now => (now E, w)
  | Log lvl msg => (tt, record w (EvLog lvl msg))
  | BroadcastClipCompleted b => (tt, record w (EvBroadcast b))
  | UpdateGeneration u => (tt, record w (EvGenerationUpdate u))
  end.

(** Running a program in one piece. *)
Fixpoint run (E : env) {A : Type} (m : prog A) (w : world) : A * world :=
  match m with
  | Ret a => (a, w)
  | Vis e k => let '(x, w') := handle E e w in run E (k x) w'
  end.

(** ** Helpers of [app/api/v1/replicate.py] *)

Record response := {
  status_code : Z;
  content : value;
}.

Definition job_key (job_id : string) : string := "ai_job:" +:+ job_id.
Definition import_marker_key (job_id : string) : string := "imported:" +:+ job_id.

(** [status_map.get(s, s)] in [publish_job_update]. *)
Definition publish_status_map (s : string) : string :=
  if String.eqb s "starting" then "queued"
  else if String.eqb s "processing" then "running"
  else s.

(** [status_map.get(s, s)] in [get_ai_job_status]. *)
Definition poll_status_map (s : string) : string :=
  if String.eqb s "starting" then "processing" else s.

Definition is_none (v : value) : bool :=
  match v with VNone => true | _ => false end.

Definition opt_num (o : option Z) : value :=
  match o with Some z => VNum z | None => VNone end.

(** [store_job_metadata(job_id, job_type, prompt, model, **extra_metadata)] *)
Definition store_job_metadata (job_id job_type prompt model : string)
    (extra_metadata : dict) : prog unit :=
  let* created_at := call Now in
  let job_data :=
    dict_update
      [("job_id", VStr job_id); ("job_type", VStr job_type);
       ("prompt", VStr prompt); ("model", VStr model);
       ("status", VStr "queued"); ("created_at", VStr created_at)]
      extra_metadata in
  call (RedisSetex (job_key job_id) 86400 (VDict job_data)).

(** [publish_job_update(job_id, status_value, progress, result_url,
    result_output, error)] *)
Definition publish_job_update (job_id status_value : string)
    (progress : option Z) (result_url : option string) (result_output : value)
    (error : option string) : prog unit :=
  let mapped_status := publish_status_map status_value in
  let* timestamp := call Now in
  let message :=
    [("event", VStr ("job." +:+ mapped_status)); ("jobId", VStr job_id);
     ("jobType", VStr "ai_generation"); ("status", VStr mapped_status);
     ("progress", opt_num progress);
     ("message", VStr ("Job " +:+ mapped_status));
     ("timestamp", VStr timestamp)] in
  let message :=
    if nonempty result_url || negb (is_none result_output) then
      let result_payload : dict := [] in
      let result_payload :=
        if nonempty result_url
        then dict_set result_payload "url" (of_opt result_url)
        else result_payload in
      let result_payload :=
        if negb (is_none result_output)
        then dict_set result_payload "output" result_output
        else result_payload in
      dict_set message "result" (VDict result_payload)
    else message in
  let message :=
    if nonempty error then dict_set message "error" (of_opt error)
    else message in
  let* _ := call (RedisPublish ("job:progress:" +:+ job_id) (VDict message)) in
  call (RedisPublish "ai_jobs:updates" (VDict message)).

(** The metadata dictionary both reconcilers hand to the import job. *)
Definition import_metadata (prompt model : value) (job_id : string) : dict :=
  [("aiGenerated", VBool true); ("prompt", prompt); ("model", model);
   ("replicate_job_id", VStr job_id)].

Definition default_user_id : string := "00000000-0000-0000-0000-000000000001".

(** ** Poll Reconciler: [get_ai_job_status] *)

(** [json.loads(s) if s else None], followed by the first [.get] on the
    result: a stored value that is truthy and no dictionary raises there; a
    falsy one is treated by every later test as a missing record is. *)
Definition load_cached (job_data_str : option value) : string + option dict :=
  match job_data_str with
  | None => inr None
  | Some (VDict []) => inr None
  | Some (VDict d) => inr (Some d)
  | Some v => if truthy v then inl "object has no attribute 'get'" else inr None
  end.

Definition hashable (v : value) : bool :=
  match v with VList _ | VDict _ => false | _ => true end.

(** [mapped_status not in {"succeeded", "failed", "canceled"}] is false. *)
Definition terminal (mapped_status : value) : bool :=
  is_str mapped_status "succeeded" || is_str mapped_status "failed"
  || is_str mapped_status "canceled".

Definition should_refresh (job_data : option dict)
    (mapped_status result_url : value) : bool :=
  match job_data with None => true | Some _ => false end
  || negb (terminal mapped_status)
  || (is_str mapped_status "succeeded" && negb (truthy result_url)).

(** What the handler holds after the cache read and the refresh. *)
Record poll_view := {
  pv_job_data : option dict;
  pv_status : value;
  pv_result_url : value;
  pv_output : value;
  pv_error : value;
}.

Definition not_found : response :=
  {| status_code := 404; content := VDict [("error", VStr "Job not found")] |}.

Definition internal_error (e : string) : response :=
  {| status_code := 500; content := VDict [("error", VStr e)] |}.

(** Lines 1894 to 1908: the provider's answer written over the cached
    record, [{**(job_data or {}), "job_id": ..., ...}]. *)
Definition poll_merge (job_data : option dict) (job_id : string)
    (prediction : prediction) (updated_at : string) : dict :=
  let mapped_status := VStr (poll_status_map (pred_status prediction)) in
  let '(result_url, normalized_output) :=
    extract_result_from_output (pred_output prediction) in
  let output := py_or normalized_output (pred_output prediction) in
  let error := of_opt (pred_error prediction) in
  dict_update (default [] job_data)
    [("job_id", VStr job_id); ("status", mapped_status);
     ("result_url", of_opt result_url); ("output", output);
     ("error", error); ("updated_at", VStr updated_at)].

(** The local variables of the handler after a refresh. *)
Definition refreshed_view (job_data : dict) (prediction : prediction)
  : poll_view :=
  let '(result_url, normalized_output) :=
    extract_result_from_output (pred_output prediction) in
  {| pv_job_data := Some job_data;
     pv_status := VStr (poll_status_map (pred_status prediction));
     pv_result_url := of_opt result_url;
     pv_output := py_or normalized_output (pred_output prediction);
     pv_error := of_opt (pred_error prediction) |}.

(** Lines 1871 to 1923: the refresh from the provider. *)
Definition refresh_from_provider (job_id : string) (cached : poll_view)
  : prog (response + poll_view) :=
  let* replicate_api_key := call (Getenv "REPLICATE_API_TOKEN") in
  if negb (nonempty replicate_api_key) then Ret (inl not_found)
  else
    let* r := call (PredictionsGet job_id) in
    match r with
    | inr prediction =>
        let* updated_at := call Now in
        let job_data :=
          poll_merge (pv_job_data cached) job_id prediction updated_at in
        let* _ := call (RedisSetex (job_key job_id) 86400 (VDict job_data)) in
        Ret (inr (refreshed_view job_data prediction))
    | inl e =>
        let* _ := call (Log LogError ("Failed to get job from Replicate: " +:+ e)) in
        match pv_job_data cached with
        | Some _ => Ret (inr cached)
        | None => Ret (inl not_found)
        end
    end.

(** Lines 1925 to 1988: the import trigger of the polling path. *)
Definition poll_auto_import (job_id : string) (v : poll_view) : prog unit :=
  let import_key := import_marker_key job_id in
  let* already := call (RedisExists import_key) in
  if already then Ret tt
  else
    let field k dflt :=
      match pv_job_data v with
      | Some d => get_default d k dflt
      | None => dflt
      end in
    let generation_type := field "generation_type" (VStr "video") in
    let prompt := field "prompt" (VStr "") in
    let model := field "model" (VStr "unknown") in
    if is_str generation_type "video" then
      let* asset_id := call Uuid4 in
      let filename := "AI_Video_" +:+ String.substring 0 8 job_id +:+ ".mp4" in
      let* r := call (EnqueueImport
                  {| imp_kind := VideoImport; imp_url := pv_result_url v;
                     imp_name := filename; imp_user_id := default_user_id;
                     imp_asset_id := asset_id;
                     imp_metadata := import_metadata prompt model job_id |}) in
      match r with
      | inr import_job =>
          let* _ := call (RedisSetex import_key 86400 (VStr "1")) in
          match pv_job_data v with
          | Some ((_ :: _) as job_data) =>
              let job_data := dict_set job_data "asset_id" (VStr asset_id) in
              let job_data := dict_set job_data "import_job_id" (VStr import_job) in
              call (RedisSetex (job_key job_id) 86400 (VDict job_data))
          | _ => Ret tt
          end
      | inl e =>
          call (Log LogError ("Failed to auto-trigger import from polling: " +:+ e))
      end
    else Ret tt.

(** Lines 1858 to 1862: the values taken from the cache. *)
Definition cached_view (job_data : option dict) : poll_view :=
  let field k dflt :=
    match job_data with Some d => get_default d k dflt | None => dflt end in
  {| pv_job_data := job_data;
     pv_status := field "status" (VStr "processing");
     pv_result_url := field "result_url" VNone;
     pv_output := field "output" VNone;
     pv_error := field "error" VNone |}.

(** Lines 1850 to 1923: the cache read and, for a stale record, the
    refresh.  The answer is the response of an early return, or what the
    handler goes on with. *)
Definition poll_lookup (job_id : string) : prog (response + poll_view) :=
  let* job_data_str := call (RedisGet (job_key job_id)) in
  match load_cached job_data_str with
  | inl e => Ret (inl (internal_error e))
  | inr job_data =>
      let cached := cached_view job_data in
      if negb (hashable (pv_status cached))
      then Ret (inl (internal_error "unhashable type"))
      else if should_refresh job_data (pv_status cached) (pv_result_url cached)
           then refresh_from_provider job_id cached
           else Ret (inr cached)
  end.

Definition status_response (v : poll_view) : response :=
  {| status_code := 200;
     content := VDict [("status", pv_status v); ("result_url", pv_result_url v);
                       ("output", pv_output v); ("error", pv_error v)] |}.

(** Lines 1925 to 1998: the import trigger and the response. *)
Definition poll_respond (job_id : string) (auto_import : bool) (v : poll_view)
  : prog response :=
  let* _ :=
    (if auto_import && is_str (pv_status v) "succeeded"
        && truthy (pv_result_url v)
     then poll_auto_import job_id v
     else Ret tt) in
  Ret (status_response v).

Definition get_ai_job_status (job_id : string) (auto_import : bool)
  : prog response :=
  let* looked_up := poll_lookup job_id in
  match looked_up with
  | inl resp => Ret resp
  | inr v => poll_respond job_id auto_import v
  end.

(** ** Webhook Reconciler: [replicate_webhook] *)

(** [ReplicateWebhookPayload] once validated; [logs] and [metrics] are not
    read by the handler. *)
Record webhook_payload := {
  wp_id : string;
  wp_status : string;
  wp_output : value;
  wp_error : option string;
}.

(** Lines 2239 to 2265: the broadcast to the generation's socket. *)
Definition webhook_broadcast (payload : webhook_payload)
    (result_url : option string) : prog unit :=
  let* job_data_str := call (RedisGet (job_key (wp_id payload))) in
  match job_data_str with
  | Some (VDict job_data) =>
      let generation_id := get job_data "generation_id" in
      if truthy generation_id then
        call (BroadcastClipCompleted
                {| bc_generation_id := generation_id;
                   bc_clip_id :=
                     get_default job_data "clip_id" (VStr (wp_id payload));
                   bc_thumbnail_url := result_url;
                   bc_duration := get_default job_data "duration" (VNum 5) |})
      else Ret tt
  | Some _ =>
      call (Log LogError
              "Failed to broadcast generation update: object has no attribute 'get'")
  | None => Ret tt
  end.

(** Lines 2267 to 2352: the import trigger of the webhook path. *)
Definition webhook_import (payload : webhook_payload) (result_url : option string)
  : prog unit :=
  if nonempty result_url then
    let redis_key := job_key (wp_id payload) in
    let import_key := import_marker_key (wp_id payload) in
    let* already := call (RedisExists import_key) in
    if already then Ret tt
    else
      let* job_data_str := call (RedisGet redis_key) in
      match job_data_str with
      | Some (VDict job_data) =>
          let generation_type :=
            get_default job_data "generation_type" (VStr "image") in
          let prompt := get_default job_data "prompt" (VStr "") in
          let model := get_default job_data "model" (VStr "unknown") in
          let* asset_id := call Uuid4 in
          let user_id := default_user_id in
          let filename :=
            if is_str generation_type "video"
            then "AI_Video_" +:+ String.substring 0 8 (wp_id payload) +:+ ".mp4"
            else "AI_Image_" +:+ String.substring 0 8 (wp_id payload) +:+ ".png" in
          let metadata := import_metadata prompt model (wp_id payload) in
          let* r :=
            call (EnqueueImport
                    {| imp_kind :=
                         if is_str generation_type "video"
                         then VideoImport else ImageImport;
                       imp_url := of_opt result_url; imp_name := filename;
                       imp_user_id := user_id; imp_asset_id := asset_id;
                       imp_metadata := metadata |}) in
          match r with
          | inr import_job_id =>
              let* _ := call (RedisSetex import_key 86400 (VStr "1")) in
              let job_data := dict_set job_data "asset_id" (VStr asset_id) in
              let job_data :=
                dict_set job_data "import_job_id" (VStr import_job_id) in
              call (RedisSetex redis_key 86400 (VDict job_data))
          | inl e =>
              call (Log LogError ("Failed to enqueue media import job: " +:+ e))
          end
      | Some _ =>
          call (Log LogError
                  "Failed to enqueue media import job: object has no attribute 'get'")
      | None => Ret tt
      end
  else Ret tt.

(** Lines 2376 to 2384: the payload written over the stored record. *)
Definition webhook_merge (job_data : dict) (payload : webhook_payload)
    (result_url : option string) (normalized_output : value)
    (updated_at : string) : dict :=
  let job_data := dict_set job_data "status" (VStr (wp_status payload)) in
  let job_data := dict_set job_data "updated_at" (VStr updated_at) in
  let job_data :=
    if nonempty result_url
    then dict_set job_data "result_url" (of_opt result_url)
    else job_data in
  let job_data :=
    if nonempty (wp_error payload)
    then dict_set job_data "error" (of_opt (wp_error payload))
    else job_data in
  if truthy (py_or normalized_output (wp_output payload))
  then dict_set job_data "output" (py_or normalized_output (wp_output payload))
  else job_data.

(** Lines 2368 to 2389: the update of the job metadata. *)
Definition webhook_update (payload : webhook_payload)
    (result_url : option string) (normalized_output : value) : prog unit :=
  let redis_key := job_key (wp_id payload) in
  let* job_data_str := call (RedisGet redis_key) in
  match job_data_str with
  | Some (VDict job_data) =>
      let* updated_at := call Now in
      call (RedisSetex redis_key 86400
              (VDict (webhook_merge job_data payload result_url
                        normalized_output updated_at)))
  | Some _ =>
      call (Log LogWarning
              "Failed to update job metadata: object does not support item assignment")
  | None => Ret tt
  end.

(** Lines 2229 to 2366: what is published, broadcast and imported for the
    status of the payload. *)
Definition webhook_notify (payload : webhook_payload)
    (result_url : option string) (result_output : value) : prog unit :=
  if String.eqb (wp_status payload) "succeeded" then
    let* _ := publish_job_update (wp_id payload) "succeeded" (Some 100%Z)
                result_url result_output None in
    let* _ := webhook_broadcast payload result_url in
    webhook_import payload result_url
  else if String.eqb (wp_status payload) "failed" then
    publish_job_update (wp_id payload) "failed" None None result_output
      (Some (if nonempty (wp_error payload)
             then default "" (wp_error payload)
             else "Generation failed"))
  else if String.eqb (wp_status payload) "canceled" then
    publish_job_update (wp_id payload) "canceled" None None result_output None
  else Ret tt.

Definition webhook_ok (payload : webhook_payload) : response :=
  {| status_code := 200;
     content := VDict [("status", VStr "ok"); ("job_id", VStr (wp_id payload))] |}.

Definition replicate_webhook (payload : webhook_payload) : prog response :=
  let '(result_url, normalized_output) :=
    extract_result_from_output (wp_output payload) in
  let* _ := webhook_notify payload result_url
              (py_or normalized_output (wp_output payload)) in
  let* _ := webhook_update payload result_url normalized_output in
  Ret (webhook_ok payload).

(** ** Clip Dispatcher *)

Definition wan_model : string := "wan-video/wan-2.5-t2v".

(** The [input] dictionary of the Wan Video 2.5 submission. *)
Definition wan_input (prompt aspect_ratio : string) : dict :=
  [("prompt", VStr prompt); ("aspect_ratio", VStr aspect_ratio);
   ("size", VStr (if String.eqb aspect_ratio "16:9"
                  then "1280*720" else "720*1280"));
   ("duration", VNum 5); ("negative_prompt", VStr "");
   ("enable_prompt_expansion", VBool true)].

(** [f"clip_{index+1}_{uuid.uuid4().hex[:8]}"] *)
Definition make_clip_id (index : nat) (uuid : string) : string :=
  "clip_" +:+ pretty (index + 1)%nat +:+ "_" +:+ String.substring 0 8 uuid.

(** [scenes[index].get("id") if index < len(scenes) else None] *)
Definition scene_id_at (scenes : list dict) (index : nat) : value :=
  match scenes !! index with
  | Some scene => get scene "id"
  | None => VNone
  end.

Definition queued_summary (clip_id : string) (p : prediction) (scene_id : value)
  : dict :=
  [("clip_id", VStr clip_id); ("prediction_id", VStr (pred_id p));
   ("status", VStr "queued");
   ("status_url", VStr ("https://replicate.com/p/" +:+ pred_id p));
   ("scene_id", scene_id)].

Definition failed_summary (clip_id e : string) (scene_id : value) : dict :=
  [("clip_id", VStr clip_id); ("status", VStr "failed"); ("error", VStr e);
   ("scene_id", scene_id)].

(** The sequential branch of both dispatchers,
    [for i, prompt in enumerate(micro_prompts):
       results.append(await _process_single_clip(prompt, i))],
    entered at index [i]. *)
Fixpoint dispatch_sequentially (process : string -> nat -> prog dict)
    (i : nat) (micro_prompts : list string) : prog (list dict) :=
  match micro_prompts with
  | [] => Ret []
  | prompt :: rest =>
      let* result := process prompt i in
      let* results := dispatch_sequentially process (S i) rest in
      Ret (result :: results)
  end.

Section LegacyDispatcher.
(** [generate_video_clips] of [app/api/v1/replicate.py], with
    [parallelize=False]. *)
Variables (scenes : list dict) (generation_id aspect_ratio : string)
          (webhook_base_url : option string).

Definition _process_single_clip (prompt : string) (index : nat) : prog dict :=
  let* uuid := call Uuid4 in
  let clip_id := make_clip_id index uuid in
  let scene_id := scene_id_at scenes index in
  let webhook_url :=
    if nonempty webhook_base_url
    then Some (default "" webhook_base_url +:+ "/api/v1/replicate/webhook")
    else None in
  let* r := call (PredictionsCreate wan_model
                    (wan_input prompt aspect_ratio) webhook_url) in
  match r with
  | inr prediction =>
      let* _ := store_job_metadata (pred_id prediction) "ai_generation"
                  prompt wan_model
                  [("generation_type", VStr "video");
                   ("clip_id", VStr clip_id);
                   ("generation_id", VStr generation_id);
                   ("scene_id", scene_id); ("duration", VNum 5)] in
      Ret (queued_summary clip_id prediction scene_id)
  | inl e =>
      let* _ := call (Log LogError
                        ("Failed to generate clip " +:+ clip_id +:+ ": " +:+ e)) in
      Ret (failed_summary clip_id e scene_id)
  end.

(** The exception raised when no token is set is the left answer. *)
Definition generate_video_clips (micro_prompts : list string)
  : prog (string + list dict) :=
  let* replicate_api_key := call (Getenv "REPLICATE_API_TOKEN") in
  if negb (nonempty replicate_api_key)
  then Ret (inl "REPLICATE_API_TOKEN environment variable not set")
  else
    let* results :=
      dispatch_sequentially _process_single_clip 0 micro_prompts in
    Ret (inr results).
End LegacyDispatcher.

Module ReplicateService.
(** The fields of the service object: the token read when the object was
    built, and whether the [replicate] package could be imported. *)
Record t := {
  api_token : option string;
  replicate_installed : bool;
}.

Definition prediction_mapping_key (prediction_id : string) : string :=
  "prediction_mapping:" +:+ prediction_id.

Definition _store_prediction_mapping
    (prediction_id generation_id clip_id : string) (scene_id : value)
  : prog unit :=
  let mapping :=
    [("generation_id", VStr generation_id); ("clip_id", VStr clip_id);
     ("scene_id", py_or scene_id (VStr ""))] in
  call (RedisSetex (prediction_mapping_key prediction_id) 86400 (VDict mapping)).

Section Dispatch.
Variables (self : t) (scenes : list dict)
          (generation_id aspect_ratio : string)
          (webhook_base_url : option string).

Definition webhook_url : option string :=
  if nonempty webhook_base_url
  then Some (default "" webhook_base_url +:+ "/api/v1/webhooks/replicate")
  else None.

Definition _process_single_clip (prompt : string) (index : nat)
  : prog dict :=
  let* uuid := call Uuid4 in
  let clip_id := make_clip_id index uuid in
  let scene_id := scene_id_at scenes index in
  let* r := call (PredictionsCreate wan_model
                    (wan_input prompt aspect_ratio) webhook_url) in
  match r with
  | inr prediction =>
      let* _ := _store_prediction_mapping (pred_id prediction)
                  generation_id clip_id scene_id in
      Ret (queued_summary clip_id prediction scene_id)
  | inl e =>
      let* _ := call (Log LogError
                        ("Failed to generate clip " +:+ clip_id +:+ ": " +:+ e)) in
      Ret (failed_summary clip_id e scene_id)
  end.

(** With [parallelize=False]. *)
Definition generate_video_clips (micro_prompts : list string)
  : prog (list dict) :=
  if negb (nonempty (api_token self)) || negb (replicate_installed self)
  then
    let* _ := call (Log LogError "Replicate not configured or installed") in
    Ret []
  else dispatch_sequentially _process_single_clip 0 micro_prompts.
End Dispatch.
End ReplicateService.

(** ** Generation Aggregator: the status and progress part of
    [get_generation] *)

Inductive GenerationStatus :=
| QUEUED | PROCESSING | COMPOSING | COMPLETED | FAILED | CANCELLED.

#[global] Instance GenerationStatus_eq_dec : EqDecision GenerationStatus.
Proof. solve_decision. Defined.

(** [GenerationStatus.X.value] *)
Definition status_value (s : GenerationStatus) : string :=
  match s with
  | QUEUED => "queued"
  | PROCESSING => "processing"
  | COMPOSING => "composing"
  | COMPLETED => "completed"
  | FAILED => "failed"
  | CANCELLED => "cancelled"
  end.

(** The percentage is a Python float; it is kept here as the exact
    rational the float expression approximates. *)
Record GenerationProgress := {
  current_step : string;
  steps_completed : nat;
  total_steps : nat;
  percentage : Q;
  current_clip : option nat;
  total_clips : option nat;
}.

(** [len([r for r in video_results_metadata if r.get("status") == "completed"])] *)
Definition count_completed (video_results_metadata : list dict) : nat :=
  length (List.filter (fun r => is_str (get r "status") "completed")
            video_results_metadata).

(** [(completed_clips / total_clips * 100) if total_clips > 0 else 0] *)
Definition percent (completed_clips total_clips : nat) : Q :=
  if (0 <? total_clips)%nat
  then (inject_Z (Z.of_nat completed_clips) / inject_Z (Z.of_nat total_clips)
        * 100)%Q
  else 0%Q.

(** [len(video_results_metadata) if video_results_metadata else 5] *)
Definition progress_total (video_results_metadata : list dict) : nat :=
  match video_results_metadata with
  | [] => 5%nat
  | _ => length video_results_metadata
  end.

(** [c.get("status") in ["queued", "processing"]], with the status found. *)
Definition active_status (clip : dict) : option string :=
  match get clip "status" with
  | VStr s =>
      if String.eqb s "queued" || String.eqb s "processing" then Some s else None
  | _ => None
  end.

(** [f"{v}"] for an identifier; identifiers are strings, and the text
    Python prints for a list or a dictionary is not modelled. *)
Definition py_str (v : value) : string :=
  match v with
  | VStr s => s
  | VNum z => pretty z
  | VBool true => "True"
  | VBool false => "False"
  | VNone => "None"
  | VList _ => "[...]"
  | VDict _ => "{...}"
  end.

(** The body of [for clip in active_clips] (lines 835 to 874) for one clip:
    the clip as the loop leaves it and whether it made an update, or the
    exception that leaves the loop. *)
Definition heal_clip (clip : dict) (current_status : string)
  : prog (string + dict * bool) :=
  let prediction_id := get clip "prediction_id" in
  if negb (truthy prediction_id) then Ret (inr (clip, false))
  else
    let* job_data_str := call (RedisGet ("ai_job:" +:+ py_str prediction_id)) in
    match job_data_str with
    | Some (VDict job_data) =>
        let redis_status := get job_data "status" in
        let '(new_status, new_url) :=
          if is_str redis_status "succeeded"
          then ("completed", get job_data "result_url")
          else if is_str redis_status "failed" then ("failed", get clip "video_url")
          else if is_str redis_status "canceled" then ("failed", get clip "video_url")
          else if is_str redis_status "processing"
               then ("processing", get clip "video_url")
          else (current_status, get clip "video_url") in
        if negb (String.eqb new_status current_status) then
          let clip := dict_set clip "status" (VStr new_status) in
          let clip :=
            if truthy new_url then dict_set clip "video_url" new_url else clip in
          Ret (inr (clip, true))
        else Ret (inr (clip, false))
    | Some _ => Ret (inl "object has no attribute 'get'")
    | None => Ret (inr (clip, false))
    end.

(** The loop over [active_clips].  The active clips are the dictionaries of
    [video_results_metadata] themselves, so the loop is a pass over that
    list that skips the clips that are not active and updates the others in
    place.  The answer is the list as the loop leaves it, [updates_made],
    and the exception if one was raised. *)
Fixpoint heal_clips (video_results_metadata : list dict)
  : prog (list dict * bool * option string) :=
  match video_results_metadata with
  | [] => Ret ([], false, None)
  | clip :: rest =>
      match active_status clip with
      | None =>
          let* (rest', updates_made, exn) := heal_clips rest in
          Ret (clip :: rest', updates_made, exn)
      | Some current_status =>
          let* r := heal_clip clip current_status in
          match r with
          | inl e => Ret (clip :: rest, false, Some e)
          | inr (clip', updated) =>
              let* (rest', updates_made, exn) := heal_clips rest in
              Ret (clip' :: rest', updated || updates_made, exn)
          end
      end
  end.

Definition has_active (video_results_metadata : list dict) : bool :=
  existsb (fun c => bool_decide (is_Some (active_status c)))
    video_results_metadata.

Record generation_view := {
  gv_status : GenerationStatus;
  gv_progress : option GenerationProgress;
  gv_video_results : list dict;
}.

(** Lines 773 to 909 of [get_generation].  [stored_status] is the [status]
    field of the generation found in storage, if it has one, and
    [video_results_metadata] the clip summaries found with it.  The two
    stores a change is written back to, the storage service and the
    in-memory dictionary, are one [UpdateGeneration] each time. *)
Definition get_generation (generation_id : string)
    (stored_status : option GenerationStatus)
    (video_results_metadata : list dict) : prog generation_view :=
  let status := default QUEUED stored_status in
  match status with
  | PROCESSING =>
      let total := progress_total video_results_metadata in
      let completed_clips := count_completed video_results_metadata in
      let progress :=
        {| current_step := "generating_clips";
           steps_completed := completed_clips; total_steps := total;
           percentage := percent completed_clips total;
           current_clip := Some completed_clips; total_clips := Some total |} in
      let should_poll :=
        match video_results_metadata with [] => false | _ => true end
        && negb (completed_clips =? total)%nat
        && has_active video_results_metadata in
      if should_poll then
        let* (clips, updates_made, exn) := heal_clips video_results_metadata in
        match exn with
        | Some e =>
            let* _ := call (Log LogWarning
                              ("[SELF-HEAL] Failed to update clip statuses: " +:+ e)) in
            Ret {| gv_status := PROCESSING; gv_progress := Some progress;
                   gv_video_results := clips |}
        | None =>
            if updates_made then
              let* _ := call (UpdateGeneration
                                {| gu_generation_id := generation_id;
                                   gu_status := status_value PROCESSING;
                                   gu_video_results := Some clips |}) in
              let completed_clips := count_completed clips in
              let progress :=
                {| current_step := "generating_clips";
                   steps_completed := completed_clips; total_steps := total;
                   percentage := percent completed_clips total;
                   current_clip := Some completed_clips;
                   total_clips := Some total |} in
              if (completed_clips =? total)%nat then
                let* _ := call (UpdateGeneration
                                  {| gu_generation_id := generation_id;
                                     gu_status := status_value COMPLETED;
                                     gu_video_results := None |}) in
                Ret {| gv_status := COMPLETED; gv_progress := Some progress;
                       gv_video_results := clips |}
              else
                Ret {| gv_status := PROCESSING; gv_progress := Some progress;
                       gv_video_results := clips |}
            else
              Ret {| gv_status := PROCESSING; gv_progress := Some progress;
                     gv_video_results := clips |}
        end
      else
        Ret {| gv_status := PROCESSING; gv_progress := Some progress;
               gv_video_results := video_results_metadata |}
  | _ =>
      Ret {| gv_status := status; gv_progress := None;
             gv_video_results := video_results_metadata |}
  end.

(** ** The asynchronous generation endpoints of [app/api/v1/replicate.py] *)

Section AsyncEndpoints.
(** Module state: [REPLICATE_WEBHOOK_URL], read from the environment when
    the module is loaded, and the text of the [ImportError] of
    [import replicate], if the package is missing. *)
Variables (REPLICATE_WEBHOOK_URL : string)
          (replicate_import_error : option string).

Definition error_response (code : Z) (e : string) : response :=
  {| status_code := code;
     content := VDict [("error", VStr e); ("status", VStr "error")] |}.

(** The body the asynchronous endpoints share, from the token check to the
    response; they differ in the model, its input, the generation type they
    store and the words of their messages. *)
Definition start_generation (model generation_type started failed : string)
    (prompt : string) (model_input : dict) : prog response :=
  let* replicate_api_key := call (Getenv "REPLICATE_API_TOKEN") in
  if negb (nonempty replicate_api_key) then
    let* _ := call (Log LogError
                      "REPLICATE_API_TOKEN environment variable not set") in
    Ret (error_response 503 "Replicate API key not configured.")
  else
    match replicate_import_error with
    | Some e =>
        let* _ := call (Log LogError
                          ("Failed to import Replicate package: " +:+ e)) in
        Ret (error_response 500 "Replicate package not installed.")
    | None =>
        let webhook_url :=
          if String.eqb REPLICATE_WEBHOOK_URL "" then None
          else Some REPLICATE_WEBHOOK_URL in
        let* r := call (PredictionsCreate model model_input webhook_url) in
        match r with
        | inr prediction =>
            let job_id := pred_id prediction in
            let* _ := store_job_metadata job_id "ai_generation" prompt model
                        [("generation_type", VStr generation_type)] in
            let* _ := publish_job_update job_id "starting" None None VNone None in
            Ret {| status_code := 202;
                   content := VDict [("job_id", VStr job_id);
                                     ("status", VStr (pred_status prediction));
                                     ("message", VStr started)] |}
        | inl e =>
            let* _ := call (Log LogError "Replicate API call failed") in
            Ret (error_response 500 (failed +:+ e))
        end
    end.

Record WanVideoT2VRequest := {
  t2v_prompt : string;
  t2v_size : string;
  t2v_duration : Z;
}.

Definition generate_wan_video_t2v (request_body : WanVideoT2VRequest)
  : prog response :=
  start_generation wan_model "video" "Video generation started"
    "Failed to start video generation: " (t2v_prompt request_body)
    [("prompt", VStr (t2v_prompt request_body));
     ("size", VStr (t2v_size request_body));
     ("duration", VNum (t2v_duration request_body));
     ("negative_prompt", VStr ""); ("enable_prompt_expansion", VBool true)].

Record FluxSchnellRequest := {
  flux_prompt : string;
  flux_aspect_ratio : string;
  flux_output_format : string;
  flux_output_quality : Z;
  flux_disable_safety_checker : bool;
  flux_seed : option Z;
}.

Definition flux_model : string := "black-forest-labs/flux-schnell".

Definition generate_flux_schnell (request_body : FluxSchnellRequest)
  : prog response :=
  let model_input :=
    [("prompt", VStr (flux_prompt request_body));
     ("aspect_ratio", VStr (flux_aspect_ratio request_body));
     ("output_format", VStr (flux_output_format request_body));
     ("output_quality", VNum (flux_output_quality request_body));
     ("disable_safety_checker", VBool (flux_disable_safety_checker request_body));
     ("go_fast", VBool true); ("megapixels", VStr "1"); ("num_outputs", VNum 1)] in
  let model_input :=
    match flux_seed request_body with
    | Some seed => dict_set model_input "seed" (VNum seed)
    | None => model_input
    end in
  start_generation flux_model "image" "Image generation started"
    "Failed to start image generation: " (flux_prompt request_body) model_input.
Record Lyria2Request := {
  lyria_prompt : string;
  lyria_negative_prompt : option string;
  lyria_seed : option Z;
}.

Definition lyria_model : string := "google/lyria-2".

Definition generate_lyria_2 (request_body : Lyria2Request) : prog response :=
  let model_input := [("prompt", VStr (lyria_prompt request_body))] in
  let model_input :=
    if nonempty (lyria_negative_prompt request_body)
    then dict_set model_input "negative_prompt"
           (of_opt (lyria_negative_prompt request_body))
    else model_input in
  let model_input :=
    match lyria_seed request_body with
    | Some seed => dict_set model_input "seed" (VNum seed)
    | None => model_input
    end in
  start_generation lyria_model "audio" "Audio generation started"
    "Failed to start audio generation: " (lyria_prompt request_body) model_input.
End AsyncEndpoints.

(** ** The callers of [ReplicateService.generate_video_clips] *)

(** [len([r for r in video_results if r.get('status') == s])] *)
Definition count_status (s : string) (video_results : list dict) : nat :=
  length (List.filter (fun r => is_str (get r "status") s) video_results).

(** [create_generation], lines 433 to 441 of [routes/v1.py]: the status a
    generation is stored with once its clips are dispatched. *)
Definition initial_status (video_results : list dict) : GenerationStatus :=
  let failed_count := count_status "failed" video_results in
  if match video_results with [] => false | _ => true end
     && (failed_count =? length video_results)%nat
  then FAILED else PROCESSING.

(** A micro-prompt as [analyze_and_prepare] hands it on: a dictionary
    whose [prompt_text] and [prompt] are strings when they are there. *)
Record micro_prompt := {
  mp_prompt_text : option string;
  mp_prompt : option string;
}.

(** [str | None] with a default, [x or dflt]. *)
Definition or_else (o : option string) (dflt : string) : string :=
  match o with
  | Some s => if String.eqb s "" then dflt else s
  | None => dflt
  end.

Section GenerationPipeline.
(** [str(mp)], the text Python prints for the dictionary. *)
Variable py_repr : micro_prompt -> string.

(** The loop of [generate_videos] that takes the prompt texts out. *)
Definition prompt_text_of (mp : micro_prompt) : string :=
  let prompt_text := default "" (mp_prompt_text mp) in
  if String.eqb prompt_text ""
  then or_else (mp_prompt mp) (py_repr mp)
  else prompt_text.

(** [GenerationPipelineService.generate_videos], for a request that
    does not ask for parallel generation.  The [HTTPException] it raises is
    the left answer. *)
Definition generate_videos (service : ReplicateService.t)
    (generation_id : string) (scenes : list dict)
    (micro_prompts : list micro_prompt) (aspect_ratio : string)
    (webhook_base_url : option string) : prog (response + list dict) :=
  if negb (match scenes with [] => false | _ => true end
           && match micro_prompts with [] => false | _ => true end
           && (length scenes =? length micro_prompts)%nat)
  then
    let* _ := call (Log LogWarning
                      ("[VIDEO_GENERATION] Skipping generation: Scenes/Prompts mismatch or empty. Scenes: "
                       +:+ pretty (length scenes) +:+ ", Prompts: "
                       +:+ pretty (length micro_prompts))) in
    Ret (inr [])
  else
    let micro_prompt_texts := map prompt_text_of micro_prompts in
    let* video_results :=
      ReplicateService.generate_video_clips service scenes generation_id
        aspect_ratio webhook_base_url micro_prompt_texts in
    if match video_results with [] => true | _ => false end
       && negb (nonempty (ReplicateService.api_token service))
    then Ret (inl {| status_code := 503;
                     content := VDict [("detail", VStr
                       "Video generation unavailable: Replicate API token not configured")] |})
    else Ret (inr video_results).
End GenerationPipeline.

Section GenerateClips.
Variable py_repr : micro_prompt -> string.

(** An entry of [micro_prompts] in the payload of [generate_clips]: a
    dictionary, or a value taken with [str].
    [prompt.get("prompt_text") or prompt.get("prompt") or str(prompt)] *)
Definition normalize_prompt (prompt : micro_prompt + string) : string :=
  match prompt with
  | inl mp => or_else (mp_prompt_text mp) (or_else (mp_prompt mp) (py_repr mp))
  | inr s => s
  end.

(** The fields [generate_clips] reads from the JSON payload; a field is
    [None] when the payload has no such key, and a request for parallel
    generation is not modelled. *)
Record generate_clips_payload := {
  gc_generation_id : option string;
  gc_scenes : list dict;
  gc_micro_prompts : list (micro_prompt + string);
  gc_aspect_ratio : option string;
  gc_webhook_base_url : option string;
}.

(** [generate_clips] of [app/api/v1/replicate.py].  The [HTTPException]
    it raises is the left answer, the response it returns the right one. *)
Definition generate_clips (payload : generate_clips_payload)
  : prog (response + response) :=
  if negb (nonempty (gc_generation_id payload)) then
    Ret (inl {| status_code := 422;
                content := VDict [("detail", VStr "generation_id is required")] |})
  else
    let micro_prompts := map normalize_prompt (gc_micro_prompts payload) in
    let* r := generate_video_clips (gc_scenes payload)
                (default "" (gc_generation_id payload))
                (default "16:9" (gc_aspect_ratio payload))
                (gc_webhook_base_url payload) micro_prompts in
    match r with
    | inr video_results =>
        Ret (inr {| status_code := 200;
                    content := VDict [("video_results",
                                       VList (map VDict video_results))] |})
    | inl e =>
        let* _ := call (Log LogError ("Error generating clips: " +:+ e)) in
        Ret (inr (internal_error e))
    end.
End GenerateClips.

(** ** Two handlers on one Redis *)

(** Whose turn it is to issue its next command. *)
Inductive turn := WebhookTurn | PollTurn.

Definition finished {A : Type} (p : prog A) : bool :=
  match p with Ret _ => true | Vis _ _ => false end.

(** One command of [p], executed in one piece. *)
Definition step (E : env) {A : Type} (p : prog A) (w : world) : prog A * world :=
  match p with
  | Ret a => (Ret a, w)
  | Vis e k => let '(x, w') := handle E e w in (k x, w')
  end.

(** Two programs run as two processes do: each command is atomic, and the
    schedule says which program issues the next one.  A turn given to a
    program that has returned is lost. *)
Fixpoint interleave (E : env) {A B : Type} (schedule : list turn)
    (p : prog A) (q : prog B) (w : world) : prog A * prog B * world :=
  match schedule with
  | [] => (p, q, w)
  | WebhookTurn :: rest =>
      let '(p', w') := step E p w in interleave E rest p' q w'
  | PollTurn :: rest =>
      let '(q', w') := step E q w in interleave E rest p q' w'
  end.

(** ** A running example *)

Definition example_env : env :=
  {| environ := fun name =>
       if String.eqb name "REPLICATE_API_TOKEN" then Some "r8_token" else None;
     predictions_get := fun _ job_id =>
       inr {| pred_id := job_id; pred_status := "succeeded";
              pred_output := VStr "http://x/out.mp4"; pred_error := None |};
     predictions_create := fun n _ =>
       inr {| pred_id := "pred-" +:+ pretty n; pred_status := "starting";
              pred_output := VNone; pred_error := None |};
     enqueue := fun n _ => inr ("rq-" +:+ pretty n);
     uuid4 := fun n => "0000000" +:+ pretty n +:+ "-0000-4000-8000-000000000000";
     now := "2025-01-01T00:00:00+00:00" |}.

Definition example_record : dict :=
  [("job_id", VStr "job-1"); ("job_type", VStr "ai_generation");
   ("prompt", VStr "a red fox"); ("model", VStr wan_model);
   ("status", VStr "queued");
   ("created_at", VStr "2025-01-01T00:00:00+00:00");
   ("generation_type", VStr "video")].

Definition example_world : world :=
  {| redis := {[ job_key "job-1" := VDict example_record ]}; history := [] |}.

Definition empty_world : world := {| redis := ∅; history := [] |}.

(** A provider output with the URL in a list under a key. *)
Definition nested_output : value :=
  VDict [("nested", VList [VStr "no-match"; VStr "http://x"])].

(** The webhook handler checks the marker and is then overtaken by a whole
    status query; it goes on with the answer it got before. *)
Definition race_schedule : list turn :=
  replicate 5 WebhookTurn ++ replicate 10 PollTurn ++ replicate 8 WebhookTurn.

(** The import queue refuses every job. *)
Definition broken_queue_env : env :=
  {| environ := environ example_env;
     predictions_get := predictions_get example_env;
     predictions_create := predictions_create example_env;
     enqueue := fun _ _ => inl "queue unavailable";
     uuid4 := uuid4 example_env;
     now := now example_env |}.

(** The provider refuses the second submission. *)
Definition second_submission_fails_env : env :=
  {| environ := environ example_env;
     predictions_get := predictions_get example_env;
     predictions_create := fun n input =>
       if (n =? 1)%nat then inl "provider error"
       else predictions_create example_env n input;
     enqueue := enqueue example_env;
     uuid4 := uuid4 example_env;
     now := now example_env |}.

Definition three_prompts : list string := ["dawn"; "noon"; "dusk"].

Definition example_service : ReplicateService.t :=
  {| ReplicateService.api_token := Some "r8_token";
     ReplicateService.replicate_installed := true |}.

(** [[r.get("status") for r in results]] *)
Definition statuses (results : list dict) : list value :=
  map (fun r => get r "status") results.

(** The clip summary of a dispatched clip, in a given status. *)
Definition clip_summary (n : nat) (status : string) : dict :=
  [("clip_id", VStr ("clip_" +:+ pretty n));
   ("prediction_id", VStr ("pred-" +:+ pretty n)); ("status", VStr status)].

Definition five_clips (status : string) : list dict :=
  map (fun n => clip_summary n status) (seq 0 5).

(** Redis once the provider has reported every one of five jobs failed. *)
Definition five_failed_jobs_world : world :=
  {| redis :=
       list_to_map
         (map (fun n => (job_key ("pred-" +:+ pretty n),
                         VDict [("job_id", VStr ("pred-" +:+ pretty n));
                                ("status", VStr "failed")]))
              (seq 0 5));
     history := [] |}.

(** No provider token is configured. *)
Definition no_token_env : env :=
  {| environ := fun _ => None;
     predictions_get := predictions_get example_env;
     predictions_create := predictions_create example_env;
     enqueue := enqueue example_env;
     uuid4 := uuid4 example_env;
     now := now example_env |}.

(** What a status query holds for the example job once the provider has
    answered. *)
Definition succeeded_view : poll_view :=
  {| pv_job_data := Some example_record; pv_status := VStr "succeeded";
     pv_result_url := VStr "http://x/out.mp4";
     pv_output := VStr "http://x/out.mp4"; pv_error := VNone |}.

(** An image job. *)
Definition image_record : dict :=
  dict_update example_record
    [("model", VStr "black-forest-labs/flux-schnell");
     ("generation_type", VStr "image")].

Definition image_world : world :=
  {| redis := {[ job_key "job-1" := VDict image_record ]}; history := [] |}.

(** A job the provider reported as failed. *)
Definition failed_record : dict :=
  dict_update example_record
    [("status", VStr "failed"); ("error", VStr "out of memory")].

Definition failed_world : world :=
  {| redis := {[ job_key "job-1" := VDict failed_record ]}; history := [] |}.

Definition succeeded_payload : webhook_payload :=
  {| wp_id := "job-1"; wp_status := "succeeded";
     wp_output := VStr "http://x/out.mp4"; wp_error := None |}.

(** The provider cannot be reached for a status. *)
Definition provider_down_env : env :=
  {| environ := environ example_env;
     predictions_get := fun _ _ => inl "connection timed out";
     predictions_create := predictions_create example_env;
     enqueue := enqueue example_env;
     uuid4 := uuid4 example_env;
     now := now example_env |}.

(** The webhook of the first prediction the example provider creates. *)
Definition first_prediction_payload : webhook_payload :=
  {| wp_id := "pred-0"; wp_status := "succeeded";
     wp_output := VList [VStr "http://x/out.webp"]; wp_error := None |}.

Definition fox_video : WanVideoT2VRequest :=
  {| t2v_prompt := "a red fox"; t2v_size := "1280*720"; t2v_duration := 5 |}.

Definition rain_audio : Lyria2Request :=
  {| lyria_prompt := "rain on a tin roof";
     lyria_negative_prompt := Some "vocals"; lyria_seed := None |}.

Definition fox_image : FluxSchnellRequest :=
  {| flux_prompt := "a red fox"; flux_aspect_ratio := "1:1";
     flux_output_format := "webp"; flux_output_quality := 80;
     flux_disable_safety_checker := false; flux_seed := Some 42%Z |}.

(** Redis once the provider has reported every one of five jobs
    succeeded. *)
Definition five_succeeded_jobs_world : world :=
  {| redis :=
       list_to_map
         (map (fun n => (job_key ("pred-" +:+ pretty n),
                         VDict [("job_id", VStr ("pred-" +:+ pretty n));
                                ("status", VStr "succeeded");
                                ("result_url",
                                 VStr ("http://x/" +:+ pretty n +:+ ".mp4"))]))
              (seq 0 5));
     history := [] |}.

Definition one_scene : list dict := [[("id", VStr "scene-1")]].

Definition one_micro_prompt : list micro_prompt :=
  [{| mp_prompt_text := Some "dawn over the sea"; mp_prompt := None |}].

(** ** Vocabulary of the properties *)

(** What an import trigger leaves of a stored record: the record itself,
    or the record with [asset_id] and [import_job_id] set. *)
Definition with_import_ids (jd jd1 : dict) : Prop :=
  jd1 = jd ∨ ∃ a i, jd1 = dict_set (dict_set jd "asset_id" a) "import_job_id" i.

(** The keys the webhook's update may write. *)
Definition webhook_written : list string :=
  ["status"; "updated_at"; "result_url"; "error"; "output"].

(** The keys the refresh of the polling path writes. *)
Definition poll_written : list string :=
  ["job_id"; "status"; "result_url"; "output"; "error"; "updated_at"].

(** The keys an import trigger writes. *)
Definition import_written : list string := ["asset_id"; "import_job_id"].

(** The JobRecord of a job in the Job Store, and one of its fields. *)
Definition job_record (w : world) (job_id : string) : option dict :=
  match redis w !! job_key job_id with
  | Some (VDict jd) => Some jd
  | _ => None
  end.

Definition stored_field (w : world) (job_id k : string) : option value :=
  jd ← job_record w job_id; dict_get jd k.

(** The Dedup Marker of a job is set. *)
Definition marked (w : world) (job_id : string) : bool :=
  match redis w !! import_marker_key job_id with Some _ => true | None => false end.

(** The cached record is stale: missing, not in a terminal status, or
    succeeded without a result URL. *)
Definition cache_is_stale (job_data : option dict) : bool :=
  should_refresh job_data (pv_status (cached_view job_data))
    (pv_result_url (cached_view job_data)).

(** The aggregate status in the words of the specification: FAILED when
    every clip failed or was canceled, COMPLETED when every clip succeeded,
    QUEUED when no clip has left [queued], PROCESSING otherwise. *)
Definition aggregate_status_by_spec (clips : list dict) : GenerationStatus :=
  let total := length clips in
  let completed :=
    length (List.filter (fun c => is_str (get c "status") "succeeded") clips) in
  let failed :=
    length (List.filter (fun c => is_str (get c "status") "failed"
                                  || is_str (get c "status") "canceled") clips) in
  if (0 <? total)%nat && (failed =? total)%nat then FAILED
  else if (0 <? total)%nat && (completed =? total)%nat then COMPLETED
  else if forallb (fun c => is_str (get c "status") "queued") clips then QUEUED
  else PROCESSING.

(** The summaries of a dispatch tell the outcome of each submission: the
    prompt at place [j] was the submission number [n0 + j], and its summary
    is the queued one for the prediction the provider created, or the
    failed one with the text of the exception. *)
Definition outcomes_recorded (E : env) (n0 : nat) (aspect_ratio : string)
    (scenes : list dict) (micro_prompts : list string) (results : list dict)
  : Prop :=
  length results = length micro_prompts
  ∧ ∀ j prompt, micro_prompts !! j = Some prompt →
      match predictions_create E (n0 + j) (wan_input prompt aspect_ratio) with
      | inr prediction =>
          ∃ clip_id, results !! j
                     = Some (queued_summary clip_id prediction (scene_id_at scenes j))
      | inl e =>
          ∃ clip_id, results !! j
                     = Some (failed_summary clip_id e (scene_id_at scenes j))
      end.

(** The job has a JobRecord with status [queued]. *)
Definition queued_in_store (w : world) (job_id : string) : Prop :=
  ∃ jd, job_record w job_id = Some jd ∧ get jd "status" = VStr "queued".

(** The first URL of a list that is there and not empty. *)
Definition first_nonempty (urls : list (option string)) : option string :=
  default None (head (List.filter nonempty urls)).

(** What has been published, channel and message. *)
Definition published (h : list event) : list (string * value) :=
  omap (fun ev => match ev with EvPublish c m => Some (c, m) | _ => None end) h.

(** The request the webhook hands to the enqueue function for a record. *)
Definition webhook_request (payload : webhook_payload)
    (result_url : option string) (job_data : dict) (asset_id : string)
  : import_request :=
  let video := is_str (get_default job_data "generation_type" (VStr "image"))
                 "video" in
  {| imp_kind := if video then VideoImport else ImageImport;
     imp_url := of_opt result_url;
     imp_name :=
       if video
       then "AI_Video_" +:+ String.substring 0 8 (wp_id payload) +:+ ".mp4"
       else "AI_Image_" +:+ String.substring 0 8 (wp_id payload) +:+ ".png";
     imp_user_id := default_user_id; imp_asset_id := asset_id;
     imp_metadata :=
       import_metadata (get_default job_data "prompt" (VStr ""))
         (get_default job_data "model" (VStr "unknown")) (wp_id payload) |}.

(** A field of the body of a response. *)
Definition get_content (r : response) (k : string) : value :=
  match content r with VDict d => get d k | _ => VNone end.

(** The record [store_job_metadata] writes. *)
Definition stored_metadata (job_id job_type prompt model created_at : string)
    (extra_metadata : dict) : dict :=
  dict_update
    [("job_id", VStr job_id); ("job_type", VStr job_type);
     ("prompt", VStr prompt); ("model", VStr model);
     ("status", VStr "queued"); ("created_at", VStr created_at)]
    extra_metadata.

(** What was handed to [update_generation], in order. *)
Definition generation_updates (h : list event) : list generation_update :=
  omap (fun ev => match ev with EvGenerationUpdate u => Some u | _ => None end) h.

(** What was broadcast to the sockets of the generations, in order. *)
Definition broadcasts (h : list event) : list clip_broadcast :=
  omap (fun ev => match ev with EvBroadcast b => Some b | _ => None end) h.

(** What the self-healing pass may do to a clip summary: it writes
    [status] and [video_url] and no other key, leaves a clip that is not
    active as it is, and a completed clip completed. *)
Definition healed (clip clip' : dict) : Prop :=
  (∀ k, k ≠ "status" → k ≠ "video_url" → dict_get clip' k = dict_get clip k)
  ∧ (active_status clip = None → clip' = clip)
  ∧ (is_str (get clip "status") "completed" = true →
     is_str (get clip' "status") "completed" = true).

(** The clip is still active in its summary, and the Job Store knows its
    prediction as succeeded. *)
Definition job_succeeded (w : world) (clip : dict) : Prop :=
  is_Some (active_status clip)
  ∧ ∃ prediction_id jd,
      get clip "prediction_id" = VStr prediction_id
      ∧ prediction_id ≠ ""
      ∧ job_record w prediction_id = Some jd
      ∧ get jd "status" = VStr "succeeded".

(** The scenes and the prompts of a generation fit: there are some, and
    as many of the ones as of the others. *)
Definition scenes_match {A : Type} (scenes : list dict) (micro_prompts : list A)
  : Prop :=
  scenes ≠ [] ∧ micro_prompts ≠ [] ∧ length scenes = length micro_prompts.

(** A handler put an import job on the queue. *)
Definition queue_grew (before after : world) : bool :=
  (length (import_queue (history before))
   <? length (import_queue (history after)))%nat.

(** * Properties *)

(** ** Dictionaries *)

Lemma dict_get_set_eq (d : dict) k v : dict_get (dict_set d k v) k = Some v.
Proof.
  induction d as [|[k' v'] d IH]; simpl.
  - by rewrite String.eqb_refl.
  - destruct (String.eqb k' k) eqn:Hk; simpl; rewrite Hk; auto.
Qed.

Lemma dict_get_set_ne (d : dict) k k' v :
  k ≠ k' → dict_get (dict_set d k v) k' = dict_get d k'.
Proof.
  intros Hne. induction d as [|[k0 v0] d IH]; simpl.
  - destruct (String.eqb_spec k k'); congruence.
  - destruct (String.eqb_spec k0 k) as [->|Hk0]; simpl.
    + destruct (String.eqb_spec k k'); congruence.
    + destruct (String.eqb_spec k0 k'); auto.
Qed.

Lemma dict_get_update_other (kvs d : dict) k :
  k ∉ kvs.*1 → dict_get (dict_update d kvs) k = dict_get d k.
Proof.
  unfold dict_update. revert d.
  induction kvs as [|[k0 v0] kvs IH]; intros d Hk; simpl; [done|].
  rewrite IH by (intros ?; apply Hk; by right).
  apply dict_get_set_ne. intros ->. apply Hk. by left.
Qed.

Lemma dict_set_nonempty (d : dict) k v : dict_set d k v ≠ [].
Proof. destruct d as [|[k' v'] d]; simpl; [done|]. by destruct (String.eqb k' k). Qed.

Lemma get_set_eq (d : dict) k v : get (dict_set d k v) k = v.
Proof. unfold get, get_default. by rewrite dict_get_set_eq. Qed.

Lemma get_set_ne (d : dict) k k' v :
  k ≠ k' → get (dict_set d k v) k' = get d k'.
Proof. intros. unfold get, get_default. by rewrite dict_get_set_ne. Qed.

(** ** Output Normalizer *)

(** Lists are searched in depth, and an empty string is passed over. *)
Example extract_nested_list :
  extract_result_from_output (VList [VList []; VStr ""; VList [VStr "http://y"]])
  = (Some "http://y", VList [VList []; VStr ""; VList [VStr "http://y"]]).
Proof. reflexivity. Qed.

(** A string, a list or a dictionary is always handed back whole as the
    audit payload. *)
Lemma extract_keeps_payload (output : value) :
  match output with
  | VStr _ | VList _ | VDict _ => (extract_result_from_output output).2 = output
  | _ => extract_result_from_output output = (None, VNone)
  end.
Proof.
  destruct output as [| | |s|items|fields]; try reflexivity.
  - simpl. generalize (VList items) as payload. intros payload.
    induction items as [|item rest IH]; [done|].
    destruct (nonempty (extract_result_from_output item).1); [reflexivity|exact IH].
  - cbn -[first_url_key]. destruct (first_url_key url_keys fields); [done|].
    by destruct (first_url_value fields).
Qed.

(** C3, as stated, fails on the nested shape: a list held under a key of
    a dictionary is not searched, so no URL comes out of
    [{"nested": ["no-match", "http://x"]}]. *)
Lemma extract_nested_finds_no_url :
  (extract_result_from_output nested_output).1 ≠ Some "http://x".
Proof. vm_compute. discriminate. Qed.

(** C3, amended: the string, the one-element list, the dictionary with a
    priority key and the dictionary with another key all give ["http://x"]
    with the value itself as audit payload; [{"nested": [...]}] and
    [{"k": "not-a-url"}] give no URL and the dictionary itself; an absent
    output gives [(None, None)]. *)
Theorem extract_result_on_spec_shapes :
  extract_result_from_output (VStr "http://x") = (Some "http://x", VStr "http://x")
  ∧ extract_result_from_output (VList [VStr "http://x"])
    = (Some "http://x", VList [VStr "http://x"])
  ∧ extract_result_from_output (VDict [("video", VStr "http://x")])
    = (Some "http://x", VDict [("video", VStr "http://x")])
  ∧ extract_result_from_output (VDict [("other", VStr "http://x")])
    = (Some "http://x", VDict [("other", VStr "http://x")])
  ∧ extract_result_from_output nested_output = (None, nested_output)
  ∧ extract_result_from_output (VDict [("k", VStr "not-a-url")])
    = (None, VDict [("k", VStr "not-a-url")])
  ∧ extract_result_from_output VNone = (None, VNone).
Proof. repeat split; reflexivity. Qed.

(** ** Running programs *)

Lemma run_bind E {A B} (m : prog A) (f : A → prog B) w :
  run E (bind m f) w = run E (f (run E m w).1) (run E m w).2.
Proof.
  revert w. induction m as [a|X e k IH]; intros w; simpl; [done|].
  destruct (handle E e w) as [x w']. apply IH.
Qed.

Lemma job_key_inj a b : job_key a = job_key b → a = b.
Proof. cbv. congruence. Qed.

Lemma marker_key_ne a b : import_marker_key a ≠ job_key b.
Proof. cbv. congruence. Qed.

#[local] Arguments job_key : simpl never.
#[local] Arguments import_marker_key : simpl never.

(** The history only grows. *)
Lemma run_history E {A} (m : prog A) w :
  ∃ h, history (run E m w).2 = history w ++ h.
Proof.
  revert w. induction m as [a|X e k IH]; intros w; simpl.
  - exists []. by rewrite app_nil_r.
  - destruct (handle E e w) as [x w'] eqn:He.
    destruct (IH x w') as [h Hh]. rewrite Hh.
    assert (∃ h0, history w' = history w ++ h0) as [h0 ->].
    { destruct e; simpl in He; inversion He; subst; simpl;
        try (by exists []; rewrite app_nil_r); by eexists [_]. }
    exists (h0 ++ h). by rewrite app_assoc.
Qed.

Lemma run_publish E job_id st pr url out err w :
  ∃ msg, run E (publish_job_update job_id st pr url out err) w
         = (tt, record (record w (EvPublish ("job:progress:" +:+ job_id) msg))
                   (EvPublish "ai_jobs:updates" msg)).
Proof. unfold publish_job_update. simpl. eexists. reflexivity. Qed.

Lemma run_broadcast E p url w :
  ∃ h, run E (webhook_broadcast p url) w
       = (tt, {| redis := redis w; history := history w ++ h |})
       ∧ enqueue_attempts h = [].
Proof.
  unfold webhook_broadcast. simpl.
  destruct (redis w !! job_key (wp_id p)) as [[| | | | |jd]|]; simpl;
    try (by eexists [_]).
  - destruct (truthy (get jd "generation_id")); simpl.
    + by eexists [_].
    + exists []. rewrite app_nil_r. by destruct w.
  - exists []. rewrite app_nil_r. by destruct w.
Qed.

Lemma run_import_absent E p url w :
  redis w !! job_key (wp_id p) = None →
  run E (webhook_import p url) w = (tt, w).
Proof.
  intros Hnone. unfold webhook_import.
  destruct (nonempty url); [|done]. simpl.
  destruct (redis w !! import_marker_key (wp_id p)); [done|].
  simpl. by rewrite Hnone.
Qed.

Lemma run_update_absent E p url norm w :
  redis w !! job_key (wp_id p) = None →
  run E (webhook_update p url norm) w = (tt, w).
Proof. intros Hnone. unfold webhook_update. simpl. by rewrite Hnone. Qed.

Lemma publish_redis E job_id st pr url out err w :
  redis (run E (publish_job_update job_id st pr url out err) w).2 = redis w.
Proof. by destruct (run_publish E job_id st pr url out err w) as [msg ->]. Qed.

Lemma broadcast_redis E p url w :
  redis (run E (webhook_broadcast p url) w).2 = redis w.
Proof. by destruct (run_broadcast E p url w) as (h & -> & _). Qed.

Lemma run_notify_absent E p url out w :
  redis w !! job_key (wp_id p) = None →
  redis (run E (webhook_notify p url out) w).2 = redis w.
Proof.
  intros Hnone. unfold webhook_notify.
  repeat case_match; rewrite ?run_bind, ?publish_redis; try done.
  rewrite run_import_absent by (by rewrite broadcast_redis, publish_redis).
  cbn [snd]. by rewrite broadcast_redis, publish_redis.
Qed.

Lemma with_import_ids_get jd jd1 k :
  with_import_ids jd jd1 → k ≠ "asset_id" → k ≠ "import_job_id" →
  dict_get jd1 k = dict_get jd k.
Proof.
  intros [->|(a & i & ->)] Ha Hi; [done|].
  by rewrite !dict_get_set_ne.
Qed.

Lemma import_record E p url w jd :
  redis w !! job_key (wp_id p) = Some (VDict jd) →
  ∃ jd1, redis (run E (webhook_import p url) w).2 !! job_key (wp_id p)
         = Some (VDict jd1) ∧ with_import_ids jd jd1.
Proof.
  intros Hjd. unfold webhook_import.
  destruct (nonempty url); [|exists jd; split; [done|by left]]. simpl.
  destruct (redis w !! import_marker_key (wp_id p));
    [exists jd; split; [done|by left]|].
  simpl. rewrite Hjd. simpl.
  destruct (enqueue E _ _) as [e|i]; simpl.
  - exists jd; split; [done|by left].
  - eexists. rewrite lookup_insert_eq. split; [done|]. right. eauto.
Qed.

Lemma notify_record E p url out w jd :
  redis w !! job_key (wp_id p) = Some (VDict jd) →
  ∃ jd1, redis (run E (webhook_notify p url out) w).2 !! job_key (wp_id p)
         = Some (VDict jd1) ∧ with_import_ids jd jd1.
Proof.
  intros Hjd. unfold webhook_notify.
  repeat case_match; rewrite ?run_bind, ?publish_redis;
    try (exists jd; split; [done|by left]).
  apply import_record. by rewrite broadcast_redis, publish_redis.
Qed.

Lemma update_record E p url norm w jd :
  redis w !! job_key (wp_id p) = Some (VDict jd) →
  redis (run E (webhook_update p url norm) w).2
  = <[job_key (wp_id p) := VDict (webhook_merge jd p url norm (now E))]> (redis w).
Proof. intros Hjd. unfold webhook_update. simpl. by rewrite Hjd. Qed.

Lemma webhook_record E p w jd :
  redis w !! job_key (wp_id p) = Some (VDict jd) →
  ∃ jd1, with_import_ids jd jd1 ∧
    redis (run E (replicate_webhook p) w).2 !! job_key (wp_id p)
    = Some (VDict (webhook_merge jd1 p (extract_result_from_output (wp_output p)).1
                     (extract_result_from_output (wp_output p)).2 (now E))).
Proof.
  intros Hjd. unfold replicate_webhook.
  destruct (extract_result_from_output (wp_output p)) as [url norm].
  rewrite !run_bind. cbn [run fst snd].
  destruct (notify_record E p url (py_or norm (wp_output p)) w jd Hjd)
    as (jd1 & Hjd1 & Hids).
  exists jd1. split; [done|].
  rewrite (update_record _ _ _ _ _ jd1) by done.
  by rewrite lookup_insert_eq.
Qed.

Lemma webhook_merge_other jd p url norm t k :
  k ∉ webhook_written →
  dict_get (webhook_merge jd p url norm t) k = dict_get jd k.
Proof.
  intros Hk. unfold webhook_merge.
  assert (k ≠ "status" ∧ k ≠ "updated_at" ∧ k ≠ "result_url" ∧ k ≠ "error"
          ∧ k ≠ "output") as (?&?&?&?&?).
  { unfold webhook_written in Hk. set_solver. }
  repeat case_match; by rewrite ?dict_get_set_ne.
Qed.

Lemma webhook_merge_status jd p url norm t :
  get (webhook_merge jd p url norm t) "status" = VStr (wp_status p).
Proof.
  unfold webhook_merge.
  repeat case_match; rewrite ?get_set_ne by done; by rewrite get_set_eq.
Qed.

(** ** Poll Reconciler, step by step *)

Lemma queries_app h1 h2 :
  provider_queries (h1 ++ h2) = provider_queries h1 ++ provider_queries h2.
Proof. apply omap_app. Qed.

Lemma poll_import_queries E id v w :
  provider_queries (history (run E (poll_auto_import id v) w).2)
  = provider_queries (history w).
Proof.
  unfold poll_auto_import. simpl.
  destruct (redis w !! import_marker_key id); [done|].
  case_match; [|done]. simpl.
  destruct (enqueue E _ _) as [e|i]; simpl.
  - rewrite !queries_app. simpl. by rewrite !app_nil_r.
  - destruct (pv_job_data v) as [[|kv d]|]; simpl; rewrite ?queries_app; simpl;
      by rewrite ?app_nil_r.
Qed.

Lemma poll_import_record E id v w jd :
  pv_job_data v = Some jd →
  redis w !! job_key id = Some (VDict jd) →
  ∃ jd1, redis (run E (poll_auto_import id v) w).2 !! job_key id
         = Some (VDict jd1) ∧ with_import_ids jd jd1.
Proof.
  intros Hv Hjd. unfold poll_auto_import. cbn [run bind call handle].
  destruct (redis w !! import_marker_key id);
    [exists jd; split; [done|by left]|].
  rewrite Hv.
  destruct (is_str _ "video"); [|exists jd; split; [done|by left]].
  cbn [run bind call handle].
  destruct (enqueue E _ _) as [e|i]; cbn [run bind call handle].
  - exists jd; split; [done|by left].
  - destruct jd as [|kv jd]; cbn.
    + exists []. split; [|by left].
      by rewrite lookup_insert_ne by apply marker_key_ne.
    + eexists. rewrite lookup_insert_eq. split; [done|]. right. eauto.
Qed.

#[local] Arguments cached_view : simpl never.
#[local] Arguments should_refresh : simpl never.
#[local] Arguments poll_merge : simpl never.
#[local] Arguments refreshed_view : simpl never.
#[local] Arguments hashable : simpl never.

Section Lookup.
Context (E : env) (job_id : string) (w : world) (job_data : option dict).
Hypothesis Hload : load_cached (redis w !! job_key job_id) = inr job_data.
Hypothesis Hhash : hashable (pv_status (cached_view job_data)) = true.

Lemma lookup_cached :
  cache_is_stale job_data = false →
  run E (poll_lookup job_id) w = (inr (cached_view job_data), w).
Proof.
  unfold cache_is_stale. intros Hr. unfold poll_lookup.
  cbn [run bind call handle]. rewrite Hload, Hhash. cbn [negb]. by rewrite Hr.
Qed.

Lemma lookup_no_token :
  cache_is_stale job_data = true →
  nonempty (environ E "REPLICATE_API_TOKEN") = false →
  run E (poll_lookup job_id) w = (inl not_found, w).
Proof.
  unfold cache_is_stale. intros Hr Ht. unfold poll_lookup.
  cbn [run bind call handle]. rewrite Hload, Hhash. cbn [negb]. rewrite Hr.
  unfold refresh_from_provider. simpl. by rewrite Ht.
Qed.

Lemma lookup_refreshed prediction :
  cache_is_stale job_data = true →
  nonempty (environ E "REPLICATE_API_TOKEN") = true →
  predictions_get E (length (provider_queries (history w))) job_id
  = inr prediction →
  let merged := poll_merge job_data job_id prediction (now E) in
  run E (poll_lookup job_id) w
  = (inr (refreshed_view merged prediction),
     {| redis := <[job_key job_id := VDict merged]> (redis w);
        history := history w ++ [EvQuery job_id] |}).
Proof.
  unfold cache_is_stale. intros Hr Ht Ha. unfold poll_lookup.
  cbn [run bind call handle]. rewrite Hload, Hhash. cbn [negb]. rewrite Hr.
  unfold refresh_from_provider. simpl. rewrite Ht. simpl. by rewrite Ha.
Qed.

Lemma lookup_provider_failed e :
  cache_is_stale job_data = true →
  nonempty (environ E "REPLICATE_API_TOKEN") = true →
  predictions_get E (length (provider_queries (history w))) job_id = inl e →
  run E (poll_lookup job_id) w
  = (match job_data with
     | Some _ => inr (cached_view job_data)
     | None => inl not_found
     end,
     {| redis := redis w;
        history := history w ++ [EvQuery job_id] ++
          [EvLog LogError ("Failed to get job from Replicate: " +:+ e)] |}).
Proof.
  unfold cache_is_stale. intros Hr Ht Ha. unfold poll_lookup.
  cbn [run bind call handle]. rewrite Hload, Hhash. cbn [negb]. rewrite Hr.
  unfold refresh_from_provider. simpl. rewrite Ht. simpl. rewrite Ha. simpl.
  unfold record. simpl. rewrite <- app_assoc.
  by destruct job_data.
Qed.
End Lookup.

Lemma respond_queries E id ai v w :
  provider_queries (history (run E (poll_respond id ai v) w).2)
  = provider_queries (history w).
Proof.
  unfold poll_respond. rewrite run_bind. cbn [run snd].
  case_match; [apply poll_import_queries|done].
Qed.

Lemma respond_response E id ai v w :
  (run E (poll_respond id ai v) w).1 = status_response v.
Proof. unfold poll_respond. by rewrite run_bind. Qed.

Lemma load_cached_dict jd :
  ∃ job_data, load_cached (Some (VDict jd)) = inr job_data
              ∧ default [] job_data = jd.
Proof. destruct jd as [|kv jd]; simpl; eauto. Qed.

Lemma load_cached_some r jd :
  load_cached r = inr (Some jd) → r = Some (VDict jd).
Proof.
  destruct r as [[| | | | |[|kv d]]|]; simpl; try case_match; congruence.
Qed.

(** What [poll_lookup] hands on: an early response with Redis untouched, or
    a view whose record is the one now in Redis, either the cached one or
    the provider's answer merged over it. *)
Lemma lookup_outcome E job_id w job_data :
  load_cached (redis w !! job_key job_id) = inr job_data →
  match run E (poll_lookup job_id) w with
  | (inl _, w') => redis w' = redis w
  | (inr v, w') =>
      ∃ jd', pv_job_data v = Some jd'
             ∧ redis w' !! job_key job_id = Some (VDict jd')
             ∧ (jd' = default [] job_data
                ∨ ∃ prediction, jd' = poll_merge job_data job_id prediction (now E))
  end.
Proof.
  intros Hload.
  destruct (hashable (pv_status (cached_view job_data))) eqn:Hhash; cycle 1.
  { unfold poll_lookup. cbn [run bind call handle]. by rewrite Hload, Hhash. }
  destruct (should_refresh job_data (pv_status (cached_view job_data))
              (pv_result_url (cached_view job_data))) eqn:Hr; cycle 1.
  { rewrite (lookup_cached E job_id w job_data) by done.
    destruct job_data as [jd|]; [|done].
    exists jd. split; [done|]. split; [|by left].
    by apply load_cached_some. }
  destruct (nonempty (environ E "REPLICATE_API_TOKEN")) eqn:Ht; cycle 1.
  { by rewrite (lookup_no_token E job_id w job_data). }
  destruct (predictions_get E (length (provider_queries (history w))) job_id)
    as [e|prediction] eqn:Ha.
  - rewrite (lookup_provider_failed E job_id w job_data) with (e := e) by done.
    destruct job_data as [jd|]; [|done].
    exists jd. split; [done|]. split; [|by left].
    by apply load_cached_some.
  - rewrite (lookup_refreshed E job_id w job_data) with (prediction := prediction)
      by done.
    eexists. split; [|split; [|right; eauto]].
    + unfold refreshed_view. by destruct (extract_result_from_output _).
    + cbn [redis]. by rewrite lookup_insert_eq.
Qed.

Lemma respond_record E job_id auto_import v w jd :
  pv_job_data v = Some jd →
  redis w !! job_key job_id = Some (VDict jd) →
  ∃ jd1, redis (run E (poll_respond job_id auto_import v) w).2 !! job_key job_id
         = Some (VDict jd1) ∧ with_import_ids jd jd1.
Proof.
  intros Hv Hjd. unfold poll_respond. rewrite run_bind. cbn [run snd].
  case_match; [by apply poll_import_record|].
  exists jd. split; [done|by left].
Qed.

(** The record a status query leaves in Redis. *)
Lemma poll_record E job_id auto_import w jd :
  redis w !! job_key job_id = Some (VDict jd) →
  ∃ jd1 jd2,
    redis (run E (get_ai_job_status job_id auto_import) w).2 !! job_key job_id
    = Some (VDict jd2)
    ∧ with_import_ids jd1 jd2
    ∧ (jd1 = jd
       ∨ ∃ job_data prediction,
           default [] job_data = jd
           ∧ jd1 = poll_merge job_data job_id prediction (now E)).
Proof.
  intros Hjd. unfold get_ai_job_status. rewrite run_bind.
  destruct (load_cached_dict jd) as (job_data & Hload & Hdef).
  rewrite <- Hjd in Hload.
  pose proof (lookup_outcome E job_id w job_data Hload) as Hout.
  destruct (run E (poll_lookup job_id) w) as [[resp|v] w1]; cbn [fst snd].
  - exists jd, jd. cbn [run snd]. rewrite Hout. split; [done|].
    split; [by left|by left].
  - destruct Hout as (jd' & Hv & Hjd' & Hcases).
    destruct (respond_record E job_id auto_import v w1 jd' Hv Hjd')
      as (jd2 & Hjd2 & Hids).
    exists jd', jd2. split; [done|]. split; [done|].
    destruct Hcases as [->|[prediction ->]]; [by left|right; eauto].
Qed.

Lemma poll_merge_other job_data job_id prediction t k :
  k ∉ poll_written →
  dict_get (poll_merge job_data job_id prediction t) k
  = dict_get (default [] job_data) k.
Proof.
  intros Hk. unfold poll_merge.
  destruct (extract_result_from_output (pred_output prediction)) as [url norm].
  by apply dict_get_update_other.
Qed.

Lemma job_record_lookup w job_id jd :
  redis w !! job_key job_id = Some (VDict jd) → job_record w job_id = Some jd.
Proof. unfold job_record. by intros ->. Qed.

Lemma job_record_some w job_id jd :
  job_record w job_id = Some jd → redis w !! job_key job_id = Some (VDict jd).
Proof.
  unfold job_record.
  destruct (redis w !! job_key job_id) as [[| | | | |d]|]; congruence.
Qed.

Lemma webhook_merge_result_url jd p url norm t :
  if nonempty url
  then get (webhook_merge jd p url norm t) "result_url" = of_opt url
  else dict_get (webhook_merge jd p url norm t) "result_url"
       = dict_get jd "result_url".
Proof.
  unfold webhook_merge. destruct (nonempty url);
    repeat case_match; rewrite ?get_set_ne, ?dict_get_set_ne by done;
    by rewrite ?get_set_eq.
Qed.

Lemma webhook_merge_error jd p url norm t :
  if nonempty (wp_error p)
  then get (webhook_merge jd p url norm t) "error" = of_opt (wp_error p)
  else dict_get (webhook_merge jd p url norm t) "error" = dict_get jd "error".
Proof.
  unfold webhook_merge. destruct (nonempty (wp_error p));
    repeat case_match; rewrite ?get_set_ne, ?dict_get_set_ne by done;
    by rewrite ?get_set_eq.
Qed.

Lemma nonempty_of_opt o : nonempty o = true → of_opt o ≠ VNone.
Proof. by destruct o. Qed.

Lemma dict_get_of_get (d : dict) k v :
  get d k = v → v ≠ VNone → dict_get d k = Some v.
Proof.
  unfold get, get_default. destruct (dict_get d k); simpl; congruence.
Qed.

Lemma dict_get_status jd p url norm t :
  dict_get (webhook_merge jd p url norm t) "status" = Some (VStr (wp_status p)).
Proof. apply dict_get_of_get; [apply webhook_merge_status|done]. Qed.

Lemma terminal_hashable s : terminal s = true → hashable s = true.
Proof. by destruct s. Qed.

Lemma fresh_cache_loads jd :
  cache_is_stale (Some jd) = false →
  load_cached (Some (VDict jd)) = inr (Some jd)
  ∧ hashable (pv_status (cached_view (Some jd))) = true.
Proof.
  unfold cache_is_stale, should_refresh. intros Hs.
  destruct jd as [|kv jd]; [done|]. split; [done|].
  apply terminal_hashable.
  destruct (terminal _); [done|]. by rewrite orb_true_r in Hs.
Qed.

(** * The claims *)

(** ** C5: a webhook for an unknown job *)




(** ** C9: the update is a merge, field by field *)

(** C9: for a job that has a JobRecord, the record a webhook leaves, and
    the record a status query leaves, agree with the prior record on every
    key outside the ones the update writes ([status], [updated_at],
    [result_url], [error], [output], and [job_id] for a status query) and
    the two keys of the import trigger; [prompt] and [model] are such
    keys. *)
Theorem reconcilers_keep_unwritten_fields E w job_id jd :
  redis w !! job_key job_id = Some (VDict jd) →
  (∀ p, wp_id p = job_id →
     let w' := (run E (replicate_webhook p) w).2 in
     is_Some (job_record w' job_id)
     ∧ (∀ k, k ∉ webhook_written ++ import_written →
             stored_field w' job_id k = dict_get jd k)
     ∧ stored_field w' job_id "prompt" = dict_get jd "prompt"
     ∧ stored_field w' job_id "model" = dict_get jd "model")
  ∧ (∀ auto_import,
       let w' := (run E (get_ai_job_status job_id auto_import) w).2 in
       is_Some (job_record w' job_id)
       ∧ (∀ k, k ∉ poll_written ++ import_written →
               stored_field w' job_id k = dict_get jd k)
       ∧ stored_field w' job_id "prompt" = dict_get jd "prompt"
       ∧ stored_field w' job_id "model" = dict_get jd "model").
Proof.
  intros Hjd. split.
  - intros p <-. cbn zeta.
    destruct (webhook_record E p w jd Hjd) as (jd1 & Hids & Hrec).
    apply job_record_lookup in Hrec.
    assert (∀ k, k ∉ webhook_written ++ import_written →
              stored_field (run E (replicate_webhook p) w).2 (wp_id p) k
              = dict_get jd k) as Hkeep.
    { intros k Hk. unfold stored_field. rewrite Hrec. cbn.
      rewrite webhook_merge_other by set_solver.
      apply (with_import_ids_get _ _ _ Hids); set_solver. }
    split; [by rewrite Hrec|]. split; [done|].
    split; apply Hkeep; set_solver.
  - intros auto_import. cbn zeta.
    destruct (poll_record E job_id auto_import w jd Hjd)
      as (jd1 & jd2 & Hrec & Hids & Hjd1).
    apply job_record_lookup in Hrec.
    assert (∀ k, k ∉ poll_written ++ import_written →
              stored_field (run E (get_ai_job_status job_id auto_import) w).2
                job_id k = dict_get jd k) as Hkeep.
    { intros k Hk. unfold stored_field. rewrite Hrec. cbn.
      rewrite (with_import_ids_get _ _ _ Hids) by set_solver.
      destruct Hjd1 as [->|(job_data & prediction & <- & ->)]; [done|].
      apply poll_merge_other. set_solver. }
    split; [by rewrite Hrec|]. split; [done|].
    split; apply Hkeep; set_solver.
Qed.

Lemma reconcilers_keep_unwritten_fields_witness :
  redis example_world !! job_key "job-1" = Some (VDict example_record)
  ∧ stored_field (run example_env (replicate_webhook succeeded_payload)
                    example_world).2 "job-1" "prompt"
    = Some (VStr "a red fox")
  ∧ stored_field (run example_env (get_ai_job_status "job-1" true)
                    example_world).2 "job-1" "model"
    = Some (VStr wan_model).
Proof.
  split; [reflexivity|].
  pose proof (reconcilers_keep_unwritten_fields example_env example_world
                "job-1" example_record eq_refl) as [Hweb Hpoll].
  split.
  - exact (proj1 (proj2 (proj2 (Hweb succeeded_payload eq_refl)))).
  - exact (proj2 (proj2 (proj2 (Hpoll true)))).
Defined.

(** ** C2: what an update does to a terminal status *)




(** ** C1: webhook and status query at the same time *)

(** Run one after the other, in either order, the two handlers put one
    import job on the queue. *)
Lemma sequential_enqueues_once :
  let webhook := replicate_webhook succeeded_payload in
  let poll := get_ai_job_status "job-1" true in
  length (import_queue (history
    (run example_env poll (run example_env webhook example_world).2).2)) = 1%nat
  ∧ length (import_queue (history
    (run example_env webhook (run example_env poll example_world).2).2)) = 1%nat.
Proof. by vm_compute. Qed.

(** C1 fails on the code: the marker is read with [EXISTS] and written
    with [SETEX] after the enqueue, and both handlers can read it before
    either writes it.  Under [race_schedule] both handlers run to their
    end, and two import jobs for the same job are on the queue. *)
Theorem race_enqueues_import_twice :
  let '(webhook, poll, w) :=
    interleave example_env race_schedule
      (replicate_webhook succeeded_payload)
      (get_ai_job_status "job-1" true) example_world in
  finished webhook = true ∧ finished poll = true
  ∧ marked w "job-1" = true
  ∧ map (λ r, get (imp_metadata r) "replicate_job_id") (import_queue (history w))
    = [VStr "job-1"; VStr "job-1"].
Proof. by vm_compute. Qed.

(** ** C8: the import queue refuses the job *)

Lemma attempts_app h1 h2 :
  enqueue_attempts (h1 ++ h2) = enqueue_attempts h1 ++ enqueue_attempts h2.
Proof. apply omap_app. Qed.

Lemma logged_app h1 h2 : logged (h1 ++ h2) = logged h1 ++ logged h2.
Proof. apply omap_app. Qed.

Lemma publish_attempts E job_id st pr url out err w :
  enqueue_attempts (history (run E (publish_job_update job_id st pr url out err) w).2)
  = enqueue_attempts (history w).
Proof.
  destruct (run_publish E job_id st pr url out err w) as [msg ->].
  cbn. rewrite !attempts_app. cbn. by rewrite !app_nil_r.
Qed.

Lemma broadcast_attempts E p url w :
  enqueue_attempts (history (run E (webhook_broadcast p url) w).2)
  = enqueue_attempts (history w).
Proof.
  destruct (run_broadcast E p url w) as (h & -> & Hh).
  cbn. by rewrite attempts_app, Hh, app_nil_r.
Qed.

(** The import trigger of the webhook, for a job with a record and no
    marker: one call of the enqueue function, and then either the marker
    and the record written, or the failure logged and Redis as before. *)
Lemma import_attempt E p url w jd :
  nonempty url = true →
  redis w !! job_key (wp_id p) = Some (VDict jd) →
  redis w !! import_marker_key (wp_id p) = None →
  let w1 := (run E (webhook_import p url) w).2 in
  ∃ req,
    enqueue_attempts (history w1) = enqueue_attempts (history w) ++ [req]
    ∧ match enqueue E (length (enqueue_attempts (history w))) req with
      | inl e =>
          redis w1 = redis w
          ∧ (LogError, "Failed to enqueue media import job: " +:+ e)
            ∈ logged (history w1)
      | inr i =>
          redis w1 !! import_marker_key (wp_id p) = Some (VStr "1")
          ∧ is_Some (job_record w1 (wp_id p))
      end.
Proof.
  intros Hurl Hjd Hmark. unfold webhook_import. rewrite Hurl.
  cbn [run bind call handle]. rewrite Hmark.
  cbn [run bind call handle]. rewrite Hjd.
  cbn [run bind call handle record history redis].
  rewrite attempts_app. cbn [enqueue_attempts omap]. rewrite app_nil_r.
  eexists. destruct (enqueue E _ _) as [e|i] eqn:Hq;
    cbn [run bind call handle record history redis snd].
  - rewrite !attempts_app. cbn. rewrite !app_nil_r. split; [done|].
    rewrite Hq. split; [done|].
    rewrite !logged_app. cbn. set_solver.
  - rewrite !attempts_app. cbn. rewrite !app_nil_r. split; [done|].
    rewrite Hq. split.
    + rewrite lookup_insert_ne by (symmetry; apply marker_key_ne).
      by rewrite lookup_insert_eq.
    + unfold job_record. cbn. by rewrite lookup_insert_eq.
Qed.

Lemma marked_lookup w job_id :
  marked w job_id = false ↔ redis w !! import_marker_key job_id = None.
Proof. unfold marked. destruct (redis w !! _); split; congruence. Qed.

Lemma notify_succeeded p url out :
  wp_status p = "succeeded" →
  webhook_notify p url out
  = (let* _ := publish_job_update (wp_id p) "succeeded" (Some 100%Z) url out None in
     let* _ := webhook_broadcast p url in
     webhook_import p url).
Proof. unfold webhook_notify. by intros ->. Qed.

(** A webhook with status [succeeded] and a result URL, for a job with a
    record and no marker: the enqueue function is called once, the stored
    status becomes [succeeded], and the marker is set exactly when the
    call succeeded. *)
Lemma webhook_attempt E p w jd :
  wp_status p = "succeeded" →
  nonempty (extract_result_from_output (wp_output p)).1 = true →
  redis w !! job_key (wp_id p) = Some (VDict jd) →
  marked w (wp_id p) = false →
  let w1 := (run E (replicate_webhook p) w).2 in
  ∃ req,
    enqueue_attempts (history w1) = enqueue_attempts (history w) ++ [req]
    ∧ is_Some (job_record w1 (wp_id p))
    ∧ stored_field w1 (wp_id p) "status" = Some (VStr "succeeded")
    ∧ match enqueue E (length (enqueue_attempts (history w))) req with
      | inl e =>
          marked w1 (wp_id p) = false
          ∧ (LogError, "Failed to enqueue media import job: " +:+ e)
            ∈ logged (history w1)
      | inr _ => marked w1 (wp_id p) = true
      end.
Proof.
  intros Hst Hurl Hjd Hmark. cbn zeta.
  apply marked_lookup in Hmark.
  unfold replicate_webhook.
  destruct (extract_result_from_output (wp_output p)) as [url norm].
  cbn [fst snd] in Hurl.
  rewrite !run_bind. cbn [run fst snd].
  set (out := py_or norm (wp_output p)).
  (* the state in which the import trigger starts *)
  rewrite (notify_succeeded p url out Hst).
  rewrite !run_bind. cbn [fst snd].
  set (w0 := (run E (webhook_broadcast p url)
                (run E (publish_job_update (wp_id p) "succeeded" (Some 100%Z)
                          url out None) w).2).2).
  assert (redis w0 = redis w) as Hredis0
    by (subst w0; by rewrite broadcast_redis, publish_redis).
  assert (enqueue_attempts (history w0) = enqueue_attempts (history w)) as Hatt0
    by (subst w0; by rewrite broadcast_attempts, publish_attempts).
  destruct (import_attempt E p url w0 jd Hurl) as (req & Hatt & Hcase);
    [by rewrite Hredis0..|].
  set (wi := (run E (webhook_import p url) w0).2) in *.
  (* the update that follows *)
  assert (∃ jdi, redis wi !! job_key (wp_id p) = Some (VDict jdi)) as [jdi Hjdi].
  { destruct (import_record E p url w0 jd) as (jdi & Hjdi & _);
      [by rewrite Hredis0|]. eauto. }
  set (wf := (run E (webhook_update p url norm) wi).2).
  assert (history wf = history wi) as Hhist.
  { subst wf. unfold webhook_update. cbn [run bind call handle].
    by rewrite Hjdi. }
  pose proof (update_record E p url norm wi jdi Hjdi) as Hredisf.
  fold wf in Hredisf.
  assert (job_record wf (wp_id p)
          = Some (webhook_merge jdi p url norm (now E))) as Hrec.
  { unfold job_record. by rewrite Hredisf, lookup_insert_eq. }
  assert (redis wf !! import_marker_key (wp_id p)
          = redis wi !! import_marker_key (wp_id p)) as Hmarkf.
  { rewrite Hredisf. apply lookup_insert_ne. symmetry. apply marker_key_ne. }
  exists req. rewrite Hhist, Hatt, Hatt0. split; [done|].
  split; [by rewrite Hrec|].
  split.
  { unfold stored_field. rewrite Hrec. cbn.
    rewrite <- Hst. apply dict_get_status. }
  rewrite Hatt0 in Hcase.
  destruct (enqueue E _ req) as [e|i].
  - destruct Hcase as [Hr Hlog]. split; [|done].
    apply marked_lookup. by rewrite Hmarkf, Hr, Hredis0.
  - destruct Hcase as [Hm _]. unfold marked. by rewrite Hmarkf, Hm.
Qed.




(** ** C6: the two import triggers *)

Lemma queue_app h1 h2 :
  import_queue (h1 ++ h2) = import_queue h1 ++ import_queue h2.
Proof. apply omap_app. Qed.

(** C6, as stated, fails: for an image job with the same record and no
    marker, the webhook enqueues an image import and the status query
    enqueues nothing. *)
Lemma import_triggers_differ_on_image :
  marked image_world "job-1" = false
  ∧ map imp_kind (import_queue (history
      (run example_env (replicate_webhook succeeded_payload) image_world).2))
    = [ImageImport]
  ∧ import_queue (history
      (run example_env (get_ai_job_status "job-1" true) image_world).2) = [].
Proof. by vm_compute. Qed.

(** C6, amended: for a job whose record says [generation_type] is
    [video], the import trigger of the status query and the one of the
    webhook, started with the same record, the same result URL and the same
    Redis, make the same calls of the enqueue function, put the same jobs
    on the queue and leave the same Redis. *)
Theorem import_triggers_agree_on_video E p v w jd u :
  redis w !! job_key (wp_id p) = Some (VDict jd) →
  pv_job_data v = Some jd →
  pv_result_url v = VStr u →
  u ≠ "" →
  dict_get jd "generation_type" = Some (VStr "video") →
  let by_webhook := (run E (webhook_import p (Some u)) w).2 in
  let by_poll := (run E (poll_auto_import (wp_id p) v) w).2 in
  redis by_webhook = redis by_poll
  ∧ enqueue_attempts (history by_webhook) = enqueue_attempts (history by_poll)
  ∧ import_queue (history by_webhook) = import_queue (history by_poll).
Proof.
  intros Hjd Hv Hurl Hu Hvideo. cbn zeta.
  unfold webhook_import, poll_auto_import.
  assert (nonempty (Some u) = true) as ->.
  { cbn. by destruct (String.eqb_spec u ""). }
  cbn [run bind call handle].
  destruct (redis w !! import_marker_key (wp_id p)); [done|].
  cbn [run bind call handle]. rewrite Hjd, Hv, Hurl.
  assert (∀ dflt, get_default jd "generation_type" dflt = VStr "video") as Hgt
    by (intros dflt; unfold get_default; by rewrite Hvideo).
  rewrite !Hgt.
  change (is_str (VStr "video") "video") with true.
  cbn [run bind call handle of_opt].
  destruct (enqueue E _ _) as [e|i];
    cbn [run bind call handle record history redis snd].
  - rewrite !attempts_app, !queue_app. by cbn.
  - by destruct jd.
Qed.

Lemma import_triggers_agree_on_video_witness :
  redis example_world !! job_key "job-1" = Some (VDict example_record)
  ∧ dict_get example_record "generation_type" = Some (VStr "video")
  ∧ import_queue (history
      (run example_env (webhook_import succeeded_payload (Some "http://x/out.mp4"))
         example_world).2)
    = import_queue (history
        (run example_env (poll_auto_import "job-1" succeeded_view)
           example_world).2).
Proof.
  split; [reflexivity|]. split; [reflexivity|].
  refine (proj2 (proj2 (import_triggers_agree_on_video example_env
            succeeded_payload succeeded_view example_world example_record
            "http://x/out.mp4" eq_refl eq_refl eq_refl _ eq_refl))).
  discriminate.
Defined.

(** ** C7: when a status query contacts the provider *)




(** ** C10: the sequential dispatch *)

Lemma submissions_app h1 h2 :
  provider_submissions (h1 ++ h2)
  = provider_submissions h1 ++ provider_submissions h2.
Proof. apply omap_app. Qed.

Section SequentialDispatch.
Context (E : env) (process : string → nat → prog dict)
        (aspect_ratio : string) (scenes : list dict)
        (Q : prediction → world → Prop).

(** What one clip does: one submission, and the summary of its outcome. *)
Hypothesis process_spec : ∀ prompt index w,
  let r := run E (process prompt index) w in
  provider_submissions (history r.2)
  = provider_submissions (history w) ++ [wan_input prompt aspect_ratio]
  ∧ match predictions_create E (length (provider_submissions (history w)))
            (wan_input prompt aspect_ratio) with
    | inr prediction =>
        (∃ clip_id, r.1 = queued_summary clip_id prediction
                            (scene_id_at scenes index))
        ∧ Q prediction r.2
    | inl e =>
        ∃ clip_id, r.1 = failed_summary clip_id e (scene_id_at scenes index)
    end.

Hypothesis Q_stable : ∀ prediction prompt index w,
  Q prediction w → Q prediction (run E (process prompt index) w).2.

Lemma dispatch_stable prediction prompts i w :
  Q prediction w →
  Q prediction (run E (dispatch_sequentially process i prompts) w).2.
Proof.
  revert i w. induction prompts as [|prompt rest IH]; intros i w HQ; [done|].
  cbn [dispatch_sequentially]. rewrite !run_bind. cbn [run snd].
  apply IH. by apply Q_stable.
Qed.

Lemma dispatch_outcomes prompts i w :
  let r := run E (dispatch_sequentially process i prompts) w in
  length r.1 = length prompts
  ∧ provider_submissions (history r.2)
    = provider_submissions (history w)
      ++ map (λ prompt, wan_input prompt aspect_ratio) prompts
  ∧ ∀ j prompt, prompts !! j = Some prompt →
      match predictions_create E
              (length (provider_submissions (history w)) + j)
              (wan_input prompt aspect_ratio) with
      | inr prediction =>
          (∃ clip_id, r.1 !! j
                      = Some (queued_summary clip_id prediction
                                (scene_id_at scenes (i + j))))
          ∧ Q prediction r.2
      | inl e =>
          ∃ clip_id, r.1 !! j
                     = Some (failed_summary clip_id e (scene_id_at scenes (i + j)))
      end.
Proof.
  revert i w. induction prompts as [|prompt rest IH]; intros i w; cbn zeta.
  { cbn. rewrite app_nil_r. repeat split; done. }
  cbn [dispatch_sequentially]. rewrite !run_bind. cbn [run fst snd].
  destruct (process_spec prompt i w) as [Hsub Hone].
  set (w1 := (run E (process prompt i) w).2) in *.
  destruct (IH (S i) w1) as (Hlen & Hsubs & Hrest).
  split; [by cbn; rewrite Hlen|].
  split; [by rewrite Hsubs, Hsub, <- app_assoc|].
  intros [|j] prompt' Hj; cbn in Hj.
  - injection Hj as <-. rewrite !Nat.add_0_r. cbn [lookup list_lookup].
    destruct (predictions_create E _ _) as [e|prediction].
    + destruct Hone as [clip_id ->]. eauto.
    + destruct Hone as [[clip_id ->] HQ]. split; [eauto|].
      by apply dispatch_stable.
  - specialize (Hrest j prompt' Hj).
    rewrite Hsub, length_app in Hrest. cbn [length] in Hrest.
    replace (length (provider_submissions (history w)) + 1 + j)%nat
      with (length (provider_submissions (history w)) + S j)%nat in Hrest by lia.
    replace (S i + j)%nat with (i + S j)%nat in Hrest by lia.
    done.
Qed.
End SequentialDispatch.

#[local] Arguments wan_input : simpl never.
#[local] Arguments queued_summary : simpl never.
#[local] Arguments failed_summary : simpl never.
#[local] Arguments make_clip_id : simpl never.

(** The record [store_job_metadata] writes for a dispatched clip. *)
Lemma stored_metadata_is_queued E job_id job_type prompt model extra w :
  "status" ∉ extra.*1 →
  queued_in_store (run E (store_job_metadata job_id job_type prompt model extra) w).2
    job_id.
Proof.
  intros Hextra. unfold store_job_metadata, queued_in_store, job_record.
  cbn [run bind call handle snd redis]. rewrite lookup_insert_eq.
  eexists. split; [done|].
  unfold get, get_default. by rewrite dict_get_update_other.
Qed.

Lemma legacy_clip_spec E scenes generation_id aspect_ratio webhook_base_url
    prompt index w :
  let r := run E (_process_single_clip scenes generation_id aspect_ratio
                    webhook_base_url prompt index) w in
  provider_submissions (history r.2)
  = provider_submissions (history w) ++ [wan_input prompt aspect_ratio]
  ∧ match predictions_create E (length (provider_submissions (history w)))
            (wan_input prompt aspect_ratio) with
    | inr prediction =>
        (∃ clip_id, r.1 = queued_summary clip_id prediction
                            (scene_id_at scenes index))
        ∧ queued_in_store r.2 (pred_id prediction)
    | inl e =>
        ∃ clip_id, r.1 = failed_summary clip_id e (scene_id_at scenes index)
    end.
Proof.
  unfold _process_single_clip. cbn [run bind call handle record history].
  rewrite submissions_app. cbn [provider_submissions omap]. rewrite app_nil_r.
  destruct (predictions_create E _ _) as [e|prediction].
  - cbn. rewrite !submissions_app. cbn. rewrite !app_nil_r. eauto.
  - rewrite run_bind. cbn [run fst snd]. split; [|split; [eauto|]].
    + unfold store_job_metadata. cbn. rewrite !submissions_app. cbn.
      by rewrite !app_nil_r.
    + apply stored_metadata_is_queued. cbn. set_solver.
Qed.

Lemma legacy_clip_stable E scenes generation_id aspect_ratio webhook_base_url
    job_id prompt index w :
  queued_in_store w job_id →
  queued_in_store (run E (_process_single_clip scenes generation_id
                            aspect_ratio webhook_base_url prompt index) w).2
    job_id.
Proof.
  intros Hq. unfold _process_single_clip.
  cbn [run bind call handle record history].
  destruct (predictions_create E _ _) as [e|prediction]; [done|].
  rewrite run_bind. cbn [run fst snd].
  destruct (decide (pred_id prediction = job_id)) as [<-|Hne].
  - apply stored_metadata_is_queued. cbn. set_solver.
  - unfold store_job_metadata, queued_in_store, job_record in *.
    cbn [run bind call handle snd redis].
    rewrite lookup_insert_ne; [done|].
    intros Heq. by apply job_key_inj in Heq.
Qed.

Lemma mapping_key_ne a b : ReplicateService.prediction_mapping_key a ≠ job_key b.
Proof. cbv. congruence. Qed.

#[local] Arguments ReplicateService.prediction_mapping_key : simpl never.

Lemma service_clip_spec E scenes generation_id aspect_ratio webhook_base_url
    prompt index w :
  let r := run E (ReplicateService._process_single_clip scenes generation_id
                    aspect_ratio webhook_base_url prompt index) w in
  provider_submissions (history r.2)
  = provider_submissions (history w) ++ [wan_input prompt aspect_ratio]
  ∧ match predictions_create E (length (provider_submissions (history w)))
            (wan_input prompt aspect_ratio) with
    | inr prediction =>
        (∃ clip_id, r.1 = queued_summary clip_id prediction
                            (scene_id_at scenes index))
        ∧ True
    | inl e =>
        ∃ clip_id, r.1 = failed_summary clip_id e (scene_id_at scenes index)
    end.
Proof.
  unfold ReplicateService._process_single_clip.
  cbn [run bind call handle record history].
  rewrite submissions_app. cbn [provider_submissions omap]. rewrite app_nil_r.
  destruct (predictions_create E _ _) as [e|prediction].
  - cbn. rewrite !submissions_app. cbn. rewrite !app_nil_r. eauto.
  - cbn. rewrite !submissions_app. cbn. rewrite !app_nil_r. eauto.
Qed.

(** The service's dispatcher writes under [prediction_mapping:] only. *)
Lemma service_clip_keeps_job_store E scenes generation_id aspect_ratio
    webhook_base_url (w0 : world) prompt index w :
  (∀ job_id, redis w !! job_key job_id = redis w0 !! job_key job_id) →
  ∀ job_id,
    redis (run E (ReplicateService._process_single_clip scenes generation_id
                    aspect_ratio webhook_base_url prompt index) w).2
      !! job_key job_id
    = redis w0 !! job_key job_id.
Proof.
  intros Hkeep job_id. unfold ReplicateService._process_single_clip.
  cbn [run bind call handle record history].
  destruct (predictions_create E _ _) as [e|prediction]; cbn; [done|].
  rewrite lookup_insert_ne by apply mapping_key_ne. apply Hkeep.
Qed.




(** ** C4: the status of a generation *)


(** A generation stored as PROCESSING: what the request answers. *)
Lemma processing_generation E w generation_id clips :
  let r := (run E (get_generation generation_id (Some PROCESSING) clips) w).1 in
  (gv_status r = PROCESSING
   ∨ gv_status r = COMPLETED
     ∧ clips ≠ []
     ∧ count_completed (gv_video_results r) = length clips)
  ∧ ∃ p, gv_progress r = Some p
         ∧ total_steps p = progress_total clips
         ∧ percentage p = percent (steps_completed p) (progress_total clips)
         ∧ (steps_completed p = count_completed clips
            ∨ steps_completed p = count_completed (gv_video_results r)).
Proof.
  cbn zeta. unfold get_generation. cbn [default]. unfold id. cbv iota.
  destruct (_ && has_active clips) eqn:Hpoll; cycle 1.
  { cbn. split; [by left|]. eexists. repeat split. by left. }
  cbv iota. rewrite run_bind.
  destruct (run E (heal_clips clips) w) as [[[clips' updates_made] exn] w1].
  cbn [fst snd].
  assert (clips ≠ []) as Hne by (by destruct clips).
  assert (progress_total clips = length clips) as Htotal by (by destruct clips).
  destruct exn as [e|].
  { cbn. split; [by left|]. eexists. repeat split. by left. }
  destruct updates_made; cycle 1.
  { cbn. split; [by left|]. eexists. repeat split. by left. }
  cbn [run bind call handle].
  destruct (count_completed clips' =? progress_total clips)%nat eqn:Hall.
  - cbn. apply Nat.eqb_eq in Hall. split.
    + right. by rewrite <- Htotal.
    + eexists. repeat split. by right.
  - cbn. split; [by left|]. eexists. repeat split. by right.
Qed.


(** * More of the code *)

(** ** Output Normalizer *)

(** X1: the audit payload of a string, a list or a dictionary is the
    output itself, whatever URL is found, and [None] for anything else;
    normalizing the payload again changes nothing. *)
Theorem extract_payload_is_output (output : value) :
  (extract_result_from_output output).2
  = match output with
    | VStr _ | VList _ | VDict _ => output
    | _ => VNone
    end
  ∧ extract_result_from_output (extract_result_from_output output).2
    = extract_result_from_output output.
Proof.
  pose proof (extract_keeps_payload output) as H.
  destruct output; try (rewrite H; done); by rewrite !H.
Qed.

Lemma dict_get_elem (d : dict) k v : dict_get d k = Some v → (k, v) ∈ d.
Proof.
  induction d as [|[k' v'] d IH]; simpl; [done|].
  destruct (String.eqb_spec k' k) as [->|Hne].
  - intros [= ->]. by left.
  - intros H. right. by apply IH.
Qed.

Lemma is_http_str_some v u :
  is_http_str v = Some u → v = VStr u ∧ String.prefix "http" u = true.
Proof.
  destruct v as [| | |s| |]; simpl; try done.
  destruct (String.prefix "http" s) eqn:Hp; [|done]. by intros [= <-].
Qed.

Lemma first_url_key_elem keys (d : dict) u :
  first_url_key keys d = Some u →
  String.prefix "http" u = true ∧ ∃ k, k ∈ keys ∧ (k, VStr u) ∈ d.
Proof.
  induction keys as [|key keys IH]; simpl; [done|].
  destruct (is_http_str (get d key)) as [u'|] eqn:Hk.
  - intros [= ->]. apply is_http_str_some in Hk as [Hget Hp].
    split; [done|]. exists key. split; [by left|].
    apply dict_get_elem. unfold get, get_default in Hget.
    by destruct (dict_get d key); simplify_eq/=.
  - intros H. destruct (IH H) as (Hp & k & Hk' & Hin).
    split; [done|]. exists k. split; [by right|done].
Qed.

Lemma first_url_value_elem (d : dict) u :
  first_url_value d = Some u →
  String.prefix "http" u = true ∧ ∃ k, (k, VStr u) ∈ d.
Proof.
  induction d as [|[k v] d IH]; simpl; [done|].
  destruct (is_http_str v) as [u'|] eqn:Hv.
  - intros [= ->]. apply is_http_str_some in Hv as [-> Hp].
    split; [done|]. exists k. by left.
  - intros H. destruct (IH H) as (Hp & k' & Hin).
    split; [done|]. exists k'. by right.
Qed.

(** X2: the URL taken out of a dictionary is the string value of one of
    its fields and starts with [http]; a dictionary with no such field
    gives no URL. *)
Theorem extract_dict_url_is_a_field (fields : dict) :
  match (extract_result_from_output (VDict fields)).1 with
  | Some u => String.prefix "http" u = true ∧ ∃ k, (k, VStr u) ∈ fields
  | None => ∀ k u, (k, VStr u) ∈ fields → String.prefix "http" u = false
  end.
Proof.
  cbn -[first_url_key].
  destruct (first_url_key url_keys fields) as [u|] eqn:Hkey; cbn.
  { apply first_url_key_elem in Hkey as (Hp & k & _ & Hin). eauto. }
  destruct (first_url_value fields) as [u|] eqn:Hval; cbn.
  { by apply first_url_value_elem in Hval. }
  clear Hkey. induction fields as [|[k v] d IH]; intros k' u Hin.
  { by apply elem_of_nil in Hin. }
  cbn in Hval. destruct (is_http_str v) eqn:Hv; [done|].
  apply elem_of_cons in Hin as [[= <- <-]|Hin]; [|by eapply IH].
  cbn in Hv. by destruct (String.prefix "http" u).
Qed.

(** X3: the URL taken out of a list is the first URL of an element, in
    order, that is not empty; in particular it is never the empty string,
    which a bare string output can be. *)
Theorem extract_list_takes_first_url (items : list value) :
  (extract_result_from_output (VList items)).1
  = first_nonempty (map (λ item, (extract_result_from_output item).1) items)
  ∧ (extract_result_from_output (VList items)).1 ≠ Some ""
  ∧ (extract_result_from_output (VStr "")).1 = Some "".
Proof.
  assert ((extract_result_from_output (VList items)).1
          = first_nonempty
              (map (λ item, (extract_result_from_output item).1) items)) as Heq.
  { simpl. generalize (VList items) as payload. intros payload.
    unfold first_nonempty.
    induction items as [|item rest IH]; [done|]. cbn.
    destruct (nonempty (extract_result_from_output item).1) eqn:Hn;
      [done|exact IH]. }
  split; [done|]. split; [|done].
  rewrite Heq. clear Heq. unfold first_nonempty.
  induction (map _ items) as [|url urls IH]; [done|]. cbn.
  destruct (nonempty url) eqn:Hn; [|exact IH].
  cbn. intros ->. done.
Qed.

(** ** Event Publisher *)

Lemma published_app h1 h2 : published (h1 ++ h2) = published h1 ++ published h2.
Proof. apply omap_app. Qed.


(** ** The asynchronous generation endpoints *)

Lemma run_store_job_metadata E job_id job_type prompt model extra w :
  run E (store_job_metadata job_id job_type prompt model extra) w
  = (tt, {| redis := <[job_key job_id :=
                         VDict (stored_metadata job_id job_type prompt model
                                  (now E) extra)]> (redis w);
            history := history w |}).
Proof. reflexivity. Qed.

Lemma stored_metadata_fields job_id job_type prompt model t generation_type :
  let jd := stored_metadata job_id job_type prompt model t
              [("generation_type", VStr generation_type)] in
  get jd "status" = VStr "queued" ∧ get jd "prompt" = VStr prompt
  ∧ get jd "model" = VStr model
  ∧ get jd "generation_type" = VStr generation_type
  ∧ get jd "job_id" = VStr job_id.
Proof. done. Qed.

Section StartGeneration.
Context (E : env) (webhook_url : string) (import_error : option string)
        (model generation_type started failed prompt : string)
        (model_input : dict) (w : world).

Let r := run E (start_generation webhook_url import_error model
                  generation_type started failed prompt model_input) w.

Lemma start_generation_unconfigured :
  nonempty (environ E "REPLICATE_API_TOKEN") = false ∨ is_Some import_error →
  (nonempty (environ E "REPLICATE_API_TOKEN") = false →
   r.1 = error_response 503 "Replicate API key not configured.")
  ∧ (nonempty (environ E "REPLICATE_API_TOKEN") = true →
     r.1 = error_response 500 "Replicate package not installed.")
  ∧ redis r.2 = redis w
  ∧ provider_submissions (history r.2) = provider_submissions (history w)
  ∧ published (history r.2) = published (history w).
Proof.
  subst r. unfold start_generation. cbn [run bind call handle].
  intros Hcase.
  destruct (nonempty (environ E "REPLICATE_API_TOKEN")) eqn:Htoken; cbn.
  - destruct Hcase as [[=]|[e ->]]. cbn.
    rewrite submissions_app, published_app. cbn. by rewrite !app_nil_r.
  - rewrite submissions_app, published_app. cbn. by rewrite !app_nil_r.
Qed.

Lemma start_generation_provider_error e :
  nonempty (environ E "REPLICATE_API_TOKEN") = true →
  import_error = None →
  predictions_create E (length (provider_submissions (history w))) model_input
  = inl e →
  r.1 = error_response 500 (failed +:+ e)
  ∧ redis r.2 = redis w
  ∧ published (history r.2) = published (history w)
  ∧ provider_submissions (history r.2)
    = provider_submissions (history w) ++ [model_input].
Proof.
  subst r. unfold start_generation. cbn [run bind call handle].
  intros -> -> Hcreate. cbn [negb run bind call handle]. rewrite Hcreate.
  cbn. rewrite !submissions_app, !published_app. cbn.
  by rewrite !app_nil_r.
Qed.

Lemma start_generation_accepted prediction :
  nonempty (environ E "REPLICATE_API_TOKEN") = true →
  import_error = None →
  predictions_create E (length (provider_submissions (history w))) model_input
  = inr prediction →
  status_code r.1 = 202%Z
  ∧ get_content r.1 "job_id" = VStr (pred_id prediction)
  ∧ get_content r.1 "status" = VStr (pred_status prediction)
  ∧ redis r.2
    = <[job_key (pred_id prediction) :=
          VDict (stored_metadata (pred_id prediction) "ai_generation" prompt
                   model (now E) [("generation_type", VStr generation_type)])]>
        (redis w)
  ∧ ∃ message,
      history r.2
      = history w ++ [EvSubmit model_input]
        ++ [EvPublish ("job:progress:" +:+ pred_id prediction) (VDict message);
            EvPublish "ai_jobs:updates" (VDict message)]
      ∧ get message "status" = VStr "queued".
Proof.
  subst r. unfold start_generation. cbn [run bind call handle].
  intros -> -> Hcreate. cbn [negb run bind call handle]. rewrite Hcreate.
  rewrite !run_bind. rewrite run_store_job_metadata. cbn [fst snd run].
  cbn. do 4 (split; [done|]). eexists.
  split; [by rewrite <- !app_assoc|reflexivity].
Qed.
End StartGeneration.

(** X5: without a provider token, or without the [replicate] package,
    the endpoints create no prediction, store nothing and publish nothing;
    the answer is 503 for the missing token and 500 for the missing
    package. *)
Theorem generation_endpoints_need_configuration E webhook_url import_error
    (video : WanVideoT2VRequest) (image : FluxSchnellRequest) w :
  nonempty (environ E "REPLICATE_API_TOKEN") = false ∨ is_Some import_error →
  ∀ r, r = run E (generate_wan_video_t2v webhook_url import_error video) w
       ∨ r = run E (generate_flux_schnell webhook_url import_error image) w →
    status_code r.1
    = (if nonempty (environ E "REPLICATE_API_TOKEN") then 500%Z else 503%Z)
    ∧ redis r.2 = redis w
    ∧ provider_submissions (history r.2) = provider_submissions (history w)
    ∧ published (history r.2) = published (history w).
Proof.
  intros Hcase r [->| ->];
    unfold generate_wan_video_t2v, generate_flux_schnell;
    match goal with
    | |- context [run E (start_generation ?u ?i ?m ?g ?s ?f ?p ?inp) w] =>
        destruct (start_generation_unconfigured E u i m g s f p inp w Hcase)
          as (H503 & H500 & Hredis & Hsub & Hpub)
    end;
    (split; [|done]);
    (destruct (nonempty (environ E "REPLICATE_API_TOKEN"));
     [by rewrite H500|by rewrite H503]).
Qed.

Lemma generation_endpoints_need_configuration_witness :
  nonempty (environ no_token_env "REPLICATE_API_TOKEN") = false
  ∧ status_code
      (run no_token_env
         (generate_wan_video_t2v "" None
            {| t2v_prompt := "a red fox"; t2v_size := "1280*720";
               t2v_duration := 5 |}) empty_world).1 = 503%Z.
Proof.
  split; [reflexivity|].
  exact (proj1 (generation_endpoints_need_configuration no_token_env "" None
                  {| t2v_prompt := "a red fox"; t2v_size := "1280*720";
                     t2v_duration := 5 |}
                  {| flux_prompt := "a red fox"; flux_aspect_ratio := "1:1";
                     flux_output_format := "webp"; flux_output_quality := 80;
                     flux_disable_safety_checker := false; flux_seed := None |}
                  empty_world (or_introl eq_refl) _ (or_introl eq_refl))).
Defined.

(** X6: when the provider call raises, the endpoints answer 500 with the
    text of the exception, and no JobRecord is stored and nothing is
    published for the submission that was made. *)
Theorem generation_endpoints_report_provider_error E webhook_url
    (video : WanVideoT2VRequest) (image : FluxSchnellRequest) w e :
  nonempty (environ E "REPLICATE_API_TOKEN") = true →
  (∀ input, predictions_create E (length (provider_submissions (history w)))
              input = inl e) →
  (let r := run E (generate_wan_video_t2v webhook_url None video) w in
   r.1 = error_response 500 ("Failed to start video generation: " +:+ e)
   ∧ redis r.2 = redis w
   ∧ published (history r.2) = published (history w)
   ∧ length (provider_submissions (history r.2))
     = S (length (provider_submissions (history w))))
  ∧ (let r := run E (generate_flux_schnell webhook_url None image) w in
     r.1 = error_response 500 ("Failed to start image generation: " +:+ e)
     ∧ redis r.2 = redis w
     ∧ published (history r.2) = published (history w)
     ∧ length (provider_submissions (history r.2))
       = S (length (provider_submissions (history w)))).
Proof.
  intros Htoken Hfail. cbn zeta.
  split; unfold generate_wan_video_t2v, generate_flux_schnell;
    match goal with
    | |- context [run E (start_generation ?u ?i ?m ?g ?s ?f ?p ?inp) w] =>
        destruct (start_generation_provider_error E u i m g s f p inp w e
                    Htoken eq_refl (Hfail inp))
          as (Hresp & Hredis & Hpub & Hsub)
    end;
    rewrite Hsub, length_app; cbn; repeat split; try done; lia.
Qed.

Lemma generation_endpoints_report_provider_error_witness :
  let E := second_submission_fails_env in
  let w := record empty_world (EvSubmit []) in
  nonempty (environ E "REPLICATE_API_TOKEN") = true
  ∧ (run E (generate_wan_video_t2v "" None
              {| t2v_prompt := "a red fox"; t2v_size := "1280*720";
                 t2v_duration := 5 |}) w).1
    = error_response 500 "Failed to start video generation: provider error".
Proof.
  split; [reflexivity|].
  exact (proj1 (proj1 (generation_endpoints_report_provider_error
                         second_submission_fails_env ""
                         {| t2v_prompt := "a red fox"; t2v_size := "1280*720";
                            t2v_duration := 5 |}
                         {| flux_prompt := "a red fox";
                            flux_aspect_ratio := "1:1";
                            flux_output_format := "webp";
                            flux_output_quality := 80;
                            flux_disable_safety_checker := false;
                            flux_seed := None |}
                         (record empty_world (EvSubmit [])) "provider error"
                         eq_refl (λ _, eq_refl)))).
Defined.

(** X7: when the provider creates the prediction, the endpoints answer
    202 with the id and the status of the prediction, the Job Store holds a
    JobRecord for that id with status [queued], the prompt, the model and
    the generation type ([video] for Wan Video, [image] for Flux Schnell),
    and one [queued] event is published on the two channels. *)
Theorem generation_endpoints_store_queued_job E webhook_url
    (video : WanVideoT2VRequest) (image : FluxSchnellRequest) w prediction :
  nonempty (environ E "REPLICATE_API_TOKEN") = true →
  (∀ input, predictions_create E (length (provider_submissions (history w)))
              input = inr prediction) →
  ∀ r prompt model generation_type,
    r = run E (generate_wan_video_t2v webhook_url None video) w
    ∧ prompt = t2v_prompt video ∧ model = wan_model ∧ generation_type = "video"
    ∨ r = run E (generate_flux_schnell webhook_url None image) w
      ∧ prompt = flux_prompt image ∧ model = flux_model
      ∧ generation_type = "image" →
    status_code r.1 = 202%Z
    ∧ get_content r.1 "job_id" = VStr (pred_id prediction)
    ∧ get_content r.1 "status" = VStr (pred_status prediction)
    ∧ (∃ jd, job_record r.2 (pred_id prediction) = Some jd
             ∧ get jd "status" = VStr "queued"
             ∧ get jd "prompt" = VStr prompt
             ∧ get jd "model" = VStr model
             ∧ get jd "generation_type" = VStr generation_type)
    ∧ ∃ message,
        published (history r.2)
        = published (history w)
          ++ [("job:progress:" +:+ pred_id prediction, VDict message);
              ("ai_jobs:updates", VDict message)]
        ∧ get message "status" = VStr "queued".
Proof.
  intros Htoken Hcreate r prompt model generation_type
    [(-> & -> & -> & ->)|(-> & -> & -> & ->)];
    unfold generate_wan_video_t2v, generate_flux_schnell;
    match goal with
    | |- context [run E (start_generation ?u ?i ?m ?g ?s ?f ?p ?inp) w] =>
        destruct (start_generation_accepted E u i m g s f p inp w prediction
                    Htoken eq_refl (Hcreate inp))
          as (Hcode & Hid & Hstatus & Hredis & message & Hhist & Hmsg)
    end;
    (do 3 (split; [done|])); split.
  1, 3: eexists; split;
    [unfold job_record; by rewrite Hredis, lookup_insert_eq
    |done].
  all: exists message; split; [|done];
    rewrite Hhist, !published_app; cbn; by rewrite ?app_nil_r.
Qed.

Lemma generation_endpoints_store_queued_job_witness :
  nonempty (environ example_env "REPLICATE_API_TOKEN") = true
  ∧ get_content
      (run example_env
         (generate_flux_schnell "" None
            {| flux_prompt := "a red fox"; flux_aspect_ratio := "1:1";
               flux_output_format := "webp"; flux_output_quality := 80;
               flux_disable_safety_checker := false; flux_seed := Some 42%Z |})
         empty_world).1 "job_id" = VStr "pred-0".
Proof.
  split; [reflexivity|].
  exact (proj1 (proj2 (generation_endpoints_store_queued_job example_env ""
                         {| t2v_prompt := "a red fox"; t2v_size := "1280*720";
                            t2v_duration := 5 |}
                         {| flux_prompt := "a red fox";
                            flux_aspect_ratio := "1:1";
                            flux_output_format := "webp";
                            flux_output_quality := 80;
                            flux_disable_safety_checker := false;
                            flux_seed := Some 42%Z |}
                         empty_world
                         {| pred_id := "pred-0"; pred_status := "starting";
                            pred_output := VNone; pred_error := None |}
                         eq_refl (λ _, eq_refl) _ _ _ _
                         (or_intror (conj eq_refl (conj eq_refl
                                       (conj eq_refl eq_refl))))))).
Defined.

(** ** When the reconcilers start an import *)

Lemma uuids_app h1 h2 :
  uuids_drawn (h1 ++ h2) = (uuids_drawn h1 + uuids_drawn h2)%nat.
Proof. unfold uuids_drawn. by rewrite omap_app, length_app. Qed.

Lemma publish_uuids E job_id st pr url out err w :
  uuids_drawn (history (run E (publish_job_update job_id st pr url out err) w).2)
  = uuids_drawn (history w).
Proof.
  destruct (run_publish E job_id st pr url out err w) as [msg ->].
  unfold record. cbn [snd history]. rewrite !uuids_app. cbn. lia.
Qed.

Lemma publish_queue E job_id st pr url out err w :
  import_queue (history (run E (publish_job_update job_id st pr url out err) w).2)
  = import_queue (history w).
Proof.
  destruct (run_publish E job_id st pr url out err w) as [msg ->].
  unfold record. cbn [snd history]. rewrite !queue_app. cbn.
  by rewrite !app_nil_r.
Qed.

(** The broadcast draws no identifier and enqueues nothing. *)
Lemma broadcast_quiet E p url w :
  uuids_drawn (history (run E (webhook_broadcast p url) w).2)
  = uuids_drawn (history w)
  ∧ import_queue (history (run E (webhook_broadcast p url) w).2)
    = import_queue (history w).
Proof.
  unfold webhook_broadcast. cbn [run bind call handle].
  destruct (redis w !! job_key (wp_id p)) as [[| | | | |jd]|];
    cbn [run bind call handle record snd history];
    rewrite ?uuids_app, ?queue_app; cbn; rewrite ?app_nil_r;
    try (split; [lia|done]).
  destruct (truthy (get jd "generation_id"));
    cbn [run bind call handle record snd history];
    rewrite ?uuids_app, ?queue_app; cbn; rewrite ?app_nil_r;
    (split; [lia|done]).
Qed.

(** The update of the metadata writes the record and nothing else. *)
Lemma update_quiet E p url norm w :
  enqueue_attempts (history (run E (webhook_update p url norm) w).2)
  = enqueue_attempts (history w)
  ∧ import_queue (history (run E (webhook_update p url norm) w).2)
    = import_queue (history w)
  ∧ ∀ job_id,
      redis (run E (webhook_update p url norm) w).2 !! import_marker_key job_id
      = redis w !! import_marker_key job_id.
Proof.
  unfold webhook_update. cbn [run bind call handle].
  destruct (redis w !! job_key (wp_id p)) as [[| | | | |jd]|];
    cbn [run bind call handle record snd history redis];
    rewrite ?attempts_app, ?queue_app; cbn; rewrite ?app_nil_r;
    try done.
  do 2 (split; [done|]). intros job_id.
  apply lookup_insert_ne. symmetry. apply marker_key_ne.
Qed.

(** The import trigger of the webhook: when it calls the enqueue function,
    and with which request. *)
Lemma import_attempts_exact E p url w :
  enqueue_attempts (history (run E (webhook_import p url) w).2)
  = enqueue_attempts (history w)
    ++ match job_record w (wp_id p) with
       | Some jd =>
           if nonempty url && negb (marked w (wp_id p))
           then [webhook_request p url jd (uuid4 E (uuids_drawn (history w)))]
           else []
       | None => []
       end.
Proof.
  unfold webhook_import, job_record, marked.
  destruct (nonempty url); cbn [andb];
    [|by destruct (redis w !! job_key _) as [[| | | | |?]|]; rewrite app_nil_r].
  cbn [run bind call handle].
  destruct (redis w !! import_marker_key (wp_id p)); cbn [negb].
  { by destruct (redis w !! job_key _) as [[| | | | |?]|]; rewrite app_nil_r. }
  cbn [run bind call handle].
  destruct (redis w !! job_key (wp_id p)) as [[| | | | |jd]|];
    cbn [run bind call handle record snd history];
    rewrite ?attempts_app; cbn [enqueue_attempts omap]; rewrite ?app_nil_r;
    try done.
  destruct (enqueue E _ _) as [e|i];
    cbn [run bind call handle record snd history];
    rewrite ?attempts_app; cbn [enqueue_attempts omap]; by rewrite ?app_nil_r.
Qed.

Lemma marker_key_inj a b : import_marker_key a = import_marker_key b → a = b.
Proof. cbv. congruence. Qed.

Lemma queue_snoc h ev :
  import_queue (h ++ [ev])
  = import_queue h
    ++ match ev with EvEnqueue r (inr _) => [r] | _ => [] end.
Proof.
  rewrite queue_app. f_equal. destruct ev as [| | |r [e|i]| | | |]; done.
Qed.

(** What the import trigger of the webhook does to the markers: the marker
    of the job is set by a request the queue accepted, and no other marker
    changes. *)
Lemma import_marker_exact E p url w job_id :
  let w1 := (run E (webhook_import p url) w).2 in
  marked w1 job_id
  = marked w job_id || (bool_decide (job_id = wp_id p) && queue_grew w w1).
Proof.
  cbn zeta. unfold webhook_import, marked, queue_grew.
  destruct (nonempty url);
    [|cbn [run snd]; by rewrite Nat.ltb_irrefl, andb_false_r, orb_false_r].
  cbn [run bind call handle].
  destruct (redis w !! import_marker_key (wp_id p)) eqn:Hmark.
  { cbn [run snd]. by rewrite Nat.ltb_irrefl, andb_false_r, orb_false_r. }
  cbn [run bind call handle].
  destruct (redis w !! job_key (wp_id p)) as [[| | | | |jd]|];
    cbn [run bind call handle record snd history redis];
    rewrite ?queue_snoc, ?app_nil_r, ?Nat.ltb_irrefl, ?andb_false_r,
      ?orb_false_r; try done.
  destruct (enqueue E _ _) as [e|i];
    cbn [run bind call handle record snd history redis];
    rewrite ?queue_snoc, ?app_nil_r, ?Nat.ltb_irrefl, ?andb_false_r,
      ?orb_false_r; try done.
  rewrite length_app. cbn [length].
  replace (_ <? _)%nat with true by (symmetry; apply Nat.ltb_lt; lia).
  rewrite andb_true_r.
  rewrite lookup_insert_ne by (symmetry; apply marker_key_ne).
  destruct (decide (job_id = wp_id p)) as [->|Hne].
  - rewrite lookup_insert_eq, Hmark. by rewrite bool_decide_eq_true_2.
  - rewrite lookup_insert_ne
      by (intros Heq; apply marker_key_inj in Heq; congruence).
    rewrite bool_decide_eq_false_2 by done. by rewrite orb_false_r.
Qed.

Lemma queue_grew_same w w1 :
  import_queue (history w1) = import_queue (history w) → queue_grew w w1 = false.
Proof. unfold queue_grew. intros ->. apply Nat.ltb_irrefl. Qed.

Lemma notify_attempts_exact E p url out w :
  enqueue_attempts (history (run E (webhook_notify p url out) w).2)
  = enqueue_attempts (history w)
    ++ match job_record w (wp_id p) with
       | Some jd =>
           if String.eqb (wp_status p) "succeeded" && nonempty url
              && negb (marked w (wp_id p))
           then [webhook_request p url jd (uuid4 E (uuids_drawn (history w)))]
           else []
       | None => []
       end.
Proof.
  unfold webhook_notify.
  destruct (String.eqb (wp_status p) "succeeded"); cbn [andb].
  - rewrite !run_bind. cbn [fst snd]. rewrite import_attempts_exact.
    unfold job_record, marked.
    rewrite !broadcast_redis, !publish_redis, broadcast_attempts,
      publish_attempts, (proj1 (broadcast_quiet _ _ _ _)), publish_uuids.
    done.
  - replace (match job_record w (wp_id p) with
             | Some _ => [] | None => []
             end) with (@nil import_request)
      by (by destruct (job_record w (wp_id p))).
    rewrite app_nil_r.
    repeat case_match; by rewrite ?publish_attempts.
Qed.

Lemma notify_marker_exact E p url out w job_id :
  let w1 := (run E (webhook_notify p url out) w).2 in
  marked w1 job_id
  = marked w job_id || (bool_decide (job_id = wp_id p) && queue_grew w w1).
Proof.
  cbn zeta. unfold webhook_notify.
  destruct (String.eqb (wp_status p) "succeeded").
  - rewrite !run_bind. cbn [fst snd]. rewrite import_marker_exact.
    unfold marked, queue_grew.
    by rewrite !broadcast_redis, !publish_redis,
      (proj2 (broadcast_quiet _ _ _ _)), publish_queue.
  - repeat case_match;
      (rewrite queue_grew_same, andb_false_r, orb_false_r;
       [unfold marked; by rewrite ?publish_redis
       |by rewrite ?publish_queue]).
Qed.

(** The cache read and the refresh enqueue nothing and leave the markers
    alone. *)
Lemma lookup_quiet E job_id w :
  let w1 := (run E (poll_lookup job_id) w).2 in
  enqueue_attempts (history w1) = enqueue_attempts (history w)
  ∧ import_queue (history w1) = import_queue (history w)
  ∧ ∀ id, redis w1 !! import_marker_key id = redis w !! import_marker_key id.
Proof.
  cbn zeta. unfold poll_lookup. cbn [run bind call handle].
  destruct (load_cached _) as [e|job_data]; [done|].
  destruct (negb (hashable _)); [done|].
  destruct (should_refresh _ _ _); [|done].
  unfold refresh_from_provider. cbn [run bind call handle].
  destruct (negb (nonempty _)); [done|].
  cbn [run bind call handle record].
  destruct (predictions_get E _ _) as [e|prediction];
    cbn [run bind call handle record snd history redis].
  - destruct (pv_job_data _);
      cbn [run bind call handle record snd history redis];
      rewrite !attempts_app, !queue_app; cbn; by rewrite !app_nil_r.
  - rewrite !attempts_app, !queue_app. cbn. rewrite !app_nil_r.
    do 2 (split; [done|]). intros id.
    apply lookup_insert_ne. symmetry. apply marker_key_ne.
Qed.

Lemma poll_import_marker_exact E job_id v w id :
  let w1 := (run E (poll_auto_import job_id v) w).2 in
  marked w1 id
  = marked w id || (bool_decide (id = job_id) && queue_grew w w1).
Proof.
  cbn zeta. unfold poll_auto_import, marked, queue_grew.
  cbn [run bind call handle].
  destruct (redis w !! import_marker_key job_id) eqn:Hmark.
  { cbn [run snd]. by rewrite Nat.ltb_irrefl, andb_false_r, orb_false_r. }
  destruct (is_str _ "video");
    [|cbn [run snd]; by rewrite Nat.ltb_irrefl, andb_false_r, orb_false_r].
  cbn [run bind call handle].
  destruct (enqueue E _ _) as [e|i];
    cbn [run bind call handle record snd history redis];
    rewrite ?queue_snoc, ?app_nil_r, ?Nat.ltb_irrefl, ?andb_false_r,
      ?orb_false_r; try done.
  assert (∀ (req : import_request) (m : gmap string value),
            m !! import_marker_key id
            = (<[import_marker_key job_id := VStr "1"]> (redis w))
                !! import_marker_key id →
            match m !! import_marker_key id with
            | Some _ => true | None => false
            end
            = match redis w !! import_marker_key id with
              | Some _ => true | None => false
              end
              || bool_decide (id = job_id)
                 && (length (import_queue (history w))
                     <? length (import_queue (history w) ++ [req]))%nat)
    as Hset.
  { intros req m ->. rewrite length_app. cbn [length].
    replace (_ <? _)%nat with true by (symmetry; apply Nat.ltb_lt; lia).
    rewrite andb_true_r.
    destruct (decide (id = job_id)) as [->|Hne].
    - rewrite lookup_insert_eq, Hmark. by rewrite bool_decide_eq_true_2.
    - rewrite lookup_insert_ne
        by (intros Heq; apply marker_key_inj in Heq; congruence).
      rewrite bool_decide_eq_false_2 by done. by rewrite orb_false_r. }
  destruct (pv_job_data v) as [[|kv jd]|];
    cbn [run bind call handle record snd history redis];
    rewrite !queue_snoc, app_nil_r; apply Hset; try done.
  apply lookup_insert_ne. symmetry. apply marker_key_ne.
Qed.


(** X9: a handler sets the Dedup Marker of a job exactly when it put an
    import job for it on the queue; it never clears a marker and never
    touches the marker of another job.  This holds for the webhook and for
    the status query. *)
Theorem marker_is_set_by_enqueued_import E p job_id auto_import w id :
  (let w1 := (run E (replicate_webhook p) w).2 in
   marked w1 id
   = marked w id || (bool_decide (id = wp_id p) && queue_grew w w1))
  ∧ (let w1 := (run E (get_ai_job_status job_id auto_import) w).2 in
     marked w1 id
     = marked w id || (bool_decide (id = job_id) && queue_grew w w1)).
Proof.
  cbn zeta. split.
  - unfold replicate_webhook.
    destruct (extract_result_from_output (wp_output p)) as [url norm].
    rewrite !run_bind. cbn [run fst snd].
    pose proof (update_quiet E p url norm
                  (run E (webhook_notify p url (py_or norm (wp_output p))) w).2)
      as (_ & Hq & Hm).
    unfold marked at 1. rewrite Hm. fold (marked (run E (webhook_notify p url (py_or norm (wp_output p))) w).2 id).
    rewrite notify_marker_exact. unfold queue_grew. by rewrite Hq.
  - unfold get_ai_job_status. rewrite run_bind.
    pose proof (lookup_quiet E job_id w) as (_ & Hq & Hm).
    destruct (run E (poll_lookup job_id) w) as [[resp|v] w0];
      cbn [fst snd run] in *.
    + rewrite queue_grew_same, andb_false_r, orb_false_r by done.
      unfold marked. by rewrite Hm.
    + unfold poll_respond. rewrite run_bind. cbn [run snd].
      destruct (_ && truthy (pv_result_url v)).
      * rewrite poll_import_marker_exact. unfold marked, queue_grew.
        by rewrite Hm, Hq.
      * cbn [run snd]. rewrite queue_grew_same, andb_false_r, orb_false_r by done.
        unfold marked. by rewrite Hm.
Qed.

(** X10: a status query enqueues no import and sets no marker when it
    was made with [auto_import] off, when the Dedup Marker of the job is
    set, or when the JobRecord says the job is not a video; this holds
    whatever the provider answers. *)
Theorem status_query_skips_import E job_id auto_import w :
  auto_import = false
  ∨ marked w job_id = true
  ∨ (∃ jd g, job_record w job_id = Some jd
             ∧ dict_get jd "generation_type" = Some g
             ∧ is_str g "video" = false) →
  let w1 := (run E (get_ai_job_status job_id auto_import) w).2 in
  enqueue_attempts (history w1) = enqueue_attempts (history w)
  ∧ ∀ id, marked w1 id = marked w id.
Proof.
  intros Hcase. cbn zeta. unfold get_ai_job_status. rewrite run_bind.
  pose proof (lookup_quiet E job_id w) as (Ha & _ & Hm).
  assert (∀ job_data, load_cached (redis w !! job_key job_id) = inr job_data →
            match run E (poll_lookup job_id) w with
            | (inl _, w') => redis w' = redis w
            | (inr v, w') =>
                ∃ jd', pv_job_data v = Some jd'
                       ∧ redis w' !! job_key job_id = Some (VDict jd')
                       ∧ (jd' = default [] job_data
                          ∨ ∃ prediction,
                              jd' = poll_merge job_data job_id prediction (now E))
            end) as Hout by apply lookup_outcome.
  destruct (run E (poll_lookup job_id) w) as [[resp|v] w0];
    cbn [fst snd run] in *.
  { split; [done|]. intros id. unfold marked. by rewrite Hm. }
  unfold poll_respond. rewrite run_bind. cbn [run snd].
  destruct (auto_import && _ && _) eqn:Hcond; cycle 1.
  { cbn [run snd]. split; [done|]. intros id. unfold marked. by rewrite Hm. }
  destruct Hcase as [->|[Hmarked|(jd & g & Hjd & Hg & Hvideo)]]; [done| |].
  - unfold poll_auto_import. cbn [run bind call handle].
    rewrite Hm. unfold marked in Hmarked.
    destruct (redis w !! import_marker_key job_id); [|done].
    cbn [run snd]. split; [done|]. intros id. unfold marked. by rewrite Hm.
  - apply job_record_some in Hjd.
    destruct (load_cached_dict jd) as (job_data & Hload & Hdef).
    rewrite <- Hjd in Hload.
    destruct (Hout job_data Hload) as (jd' & Hv & _ & Hjd').
    assert (dict_get jd' "generation_type" = Some g) as Hg'.
    { destruct Hjd' as [->|[prediction ->]]; [by rewrite Hdef|].
      rewrite poll_merge_other, Hdef; [done|].
      unfold poll_written. set_solver. }
    unfold poll_auto_import. cbn [run bind call handle].
    destruct (redis w0 !! import_marker_key job_id).
    { cbn [run snd]. split; [done|]. intros id. unfold marked. by rewrite Hm. }
    assert (get_default jd' "generation_type" (VStr "video") = g) as Hgd
      by (unfold get_default; by rewrite Hg').
    rewrite Hv, Hgd, Hvideo.
    cbn [run snd]. split; [done|]. intros id. unfold marked. by rewrite Hm.
Qed.

Lemma status_query_skips_import_witness :
  (∃ jd g, job_record image_world "job-1" = Some jd
           ∧ dict_get jd "generation_type" = Some g
           ∧ is_str g "video" = false)
  ∧ enqueue_attempts (history
      (run example_env (get_ai_job_status "job-1" true) image_world).2)
    = enqueue_attempts (history image_world).
Proof.
  assert (∃ jd g, job_record image_world "job-1" = Some jd
                  ∧ dict_get jd "generation_type" = Some g
                  ∧ is_str g "video" = false) as Himage.
  { exists image_record, (VStr "image"). repeat split; reflexivity. }
  split; [exact Himage|].
  exact (proj1 (status_query_skips_import example_env "job-1" true image_world
                  (or_intror (or_intror Himage)))).
Defined.

(** ** From the endpoint to the import *)

Lemma webhook_after_store E p w0 w jd :
  redis w0 = <[job_key (wp_id p) := VDict jd]> (redis w) →
  marked w (wp_id p) = false →
  wp_status p = "succeeded" →
  nonempty (extract_result_from_output (wp_output p)).1 = true →
  enqueue_attempts (history (run E (replicate_webhook p) w0).2)
  = enqueue_attempts (history w0)
    ++ [webhook_request p (extract_result_from_output (wp_output p)).1 jd
          (uuid4 E (uuids_drawn (history w0)))].
Proof.
  intros Hredis Hmark Hst Hurl. unfold replicate_webhook.
  destruct (extract_result_from_output (wp_output p)) as [url norm].
  cbn [fst] in *. rewrite !run_bind. cbn [run fst snd].
  rewrite (proj1 (update_quiet _ _ _ _ _)), notify_attempts_exact.
  unfold job_record, marked in *. rewrite Hredis, lookup_insert_eq.
  rewrite lookup_insert_ne by (symmetry; apply marker_key_ne).
  rewrite Hst, Hurl. cbn [String.eqb andb].
  by destruct (redis w !! import_marker_key (wp_id p)).
Qed.



(** ** A status query after the webhook *)

Lemma stale_not_importable jd :
  cache_is_stale (Some jd) = true →
  is_str (pv_status (cached_view (Some jd))) "succeeded"
  && truthy (pv_result_url (cached_view (Some jd))) = false.
Proof.
  unfold cache_is_stale, should_refresh, terminal. cbn [orb].
  destruct (is_str _ "succeeded"); cbn [orb andb negb]; [|done].
  by destruct (truthy _).
Qed.

Lemma get_default_of_get (d : dict) k v dflt :
  get d k = v → v ≠ VNone → get_default d k dflt = v.
Proof.
  intros Hget Hv. unfold get_default.
  by rewrite (dict_get_of_get d k v Hget Hv).
Qed.





(** ** The callers of the dispatchers *)

Lemma scenes_match_guard {A} (scenes : list dict) (micro_prompts : list A) :
  match scenes with [] => false | _ => true end
  && match micro_prompts with [] => false | _ => true end
  && (length scenes =? length micro_prompts)%nat = true
  ↔ scenes_match scenes micro_prompts.
Proof.
  unfold scenes_match. rewrite !andb_true_iff, Nat.eqb_eq.
  destruct scenes, micro_prompts; naive_solver.
Qed.

(** The service dispatcher, configured: one summary and one submission per
    prompt, and the Job Store as it was. *)
Lemma service_dispatch E w scenes generation_id aspect_ratio webhook_base_url
    micro_prompts self :
  nonempty (ReplicateService.api_token self) = true →
  ReplicateService.replicate_installed self = true →
  let r := run E (ReplicateService.generate_video_clips self scenes
                    generation_id aspect_ratio webhook_base_url
                    micro_prompts) w in
  outcomes_recorded E (length (provider_submissions (history w))) aspect_ratio
    scenes micro_prompts r.1
  ∧ provider_submissions (history r.2)
    = provider_submissions (history w)
      ++ map (λ prompt, wan_input prompt aspect_ratio) micro_prompts.
Proof.
  intros Hself Hinstalled. cbn zeta.
  unfold ReplicateService.generate_video_clips.
  rewrite Hself, Hinstalled. cbn [negb orb].
  pose proof (dispatch_outcomes E
                (ReplicateService._process_single_clip scenes generation_id
                   aspect_ratio webhook_base_url)
                aspect_ratio scenes (λ _ _, True)
                (service_clip_spec E scenes generation_id aspect_ratio
                   webhook_base_url)
                (λ _ _ _ _ _, I)
                micro_prompts 0%nat w) as (Hlen & Hsubs & Hout).
  split; [split; [done|]|done].
  intros j prompt Hj. specialize (Hout j prompt Hj).
  destruct (predictions_create E _ _); [done|]. by destruct Hout.
Qed.

(** The dispatcher of [app/api/v1/replicate.py], with a token: one
    summary and one submission per prompt. *)
Lemma legacy_dispatch E w scenes generation_id aspect_ratio webhook_base_url
    micro_prompts :
  nonempty (environ E "REPLICATE_API_TOKEN") = true →
  let r := run E (generate_video_clips scenes generation_id aspect_ratio
                    webhook_base_url micro_prompts) w in
  ∃ results,
    r.1 = inr results
    ∧ outcomes_recorded E (length (provider_submissions (history w)))
        aspect_ratio scenes micro_prompts results
    ∧ provider_submissions (history r.2)
      = provider_submissions (history w)
        ++ map (λ prompt, wan_input prompt aspect_ratio) micro_prompts.
Proof.
  intros Htoken. cbn zeta.
  unfold generate_video_clips. cbn [run bind call handle].
  rewrite Htoken. cbn [negb]. rewrite run_bind. cbn [run fst snd].
  pose proof (dispatch_outcomes E
                (_process_single_clip scenes generation_id aspect_ratio
                   webhook_base_url)
                aspect_ratio scenes
                (λ prediction w', queued_in_store w' (pred_id prediction))
                (legacy_clip_spec E scenes generation_id aspect_ratio
                   webhook_base_url)
                (λ prediction, legacy_clip_stable E scenes generation_id
                   aspect_ratio webhook_base_url (pred_id prediction))
                micro_prompts 0%nat w) as (Hlen & Hsubs & Hout).
  eexists. split; [done|]. split; [split; [done|]|done].
  intros j prompt Hj. specialize (Hout j prompt Hj).
  destruct (predictions_create E _ _); [done|]. by destruct Hout.
Qed.





(** ** The status a generation starts with *)

Lemma filter_shorter {A} (f : A → bool) (l : list A) :
  (length (List.filter f l) ≤ length l)%nat.
Proof. induction l as [|a l IH]; cbn; [done|]. destruct (f a); cbn; lia. Qed.

Lemma count_status_all s (l : list dict) :
  count_status s l = length l
  ↔ Forall (λ r, is_str (get r "status") s = true) l.
Proof.
  unfold count_status. induction l as [|r l IH]; cbn [List.filter length].
  { split; [constructor|done]. }
  destruct (is_str (get r "status") s) eqn:Hr; cbn [length]; split.
  - intros [= Hlen]. constructor; [done|by apply IH].
  - intros Hall. inversion Hall; subst. f_equal. by apply IH.
  - intros Hlen.
    pose proof (filter_shorter (λ r, is_str (get r "status") s) l). lia.
  - intros Hall. inversion Hall; subst. congruence.
Qed.

Lemma initial_status_failed (video_results : list dict) :
  initial_status video_results = FAILED
  ↔ video_results ≠ []
    ∧ Forall (λ r, is_str (get r "status") "failed" = true) video_results.
Proof.
  rewrite <- count_status_all. unfold initial_status.
  destruct video_results as [|r l]; cbn [andb]; [naive_solver|].
  destruct (Nat.eqb_spec (count_status "failed" (r :: l)) (length (r :: l)));
    naive_solver.
Qed.

(** X16: a generation dispatched through the configured service starts
    as FAILED exactly when there was a prompt and the provider refused
    every submission; with one clip queued, or no prompt at all, it starts
    as PROCESSING. *)
Theorem initial_status_failed_iff_no_clip_started E w self scenes generation_id
    aspect_ratio webhook_base_url micro_prompts :
  nonempty (ReplicateService.api_token self) = true →
  ReplicateService.replicate_installed self = true →
  let n0 := length (provider_submissions (history w)) in
  let video_results :=
    (run E (ReplicateService.generate_video_clips self scenes generation_id
              aspect_ratio webhook_base_url micro_prompts) w).1 in
  (initial_status video_results = FAILED
   ∨ initial_status video_results = PROCESSING)
  ∧ (initial_status video_results = FAILED
     ↔ micro_prompts ≠ []
       ∧ ∀ j prompt, micro_prompts !! j = Some prompt →
           ∃ e, predictions_create E (n0 + j) (wan_input prompt aspect_ratio)
                = inl e).
Proof.
  intros Hself Hinstalled. cbn zeta.
  destruct (service_dispatch E w scenes generation_id aspect_ratio
              webhook_base_url micro_prompts self Hself Hinstalled)
    as [[Hlen Hout] _].
  set (results := (run E _ w).1) in *.
  split; [unfold initial_status; case_match; eauto|].
  rewrite initial_status_failed, Forall_lookup. split.
  - intros [Hne Hall]. split.
    { intros ->. by destruct results. }
    intros j prompt Hj. specialize (Hout j prompt Hj).
    destruct (predictions_create E _ _) as [e|prediction]; [eauto|].
    destruct Hout as [clip_id Hr]. by apply Hall in Hr.
  - intros [Hne Hall]. split.
    { intros Hnil. rewrite Hnil in Hlen. by destruct micro_prompts. }
    intros j r Hr.
    assert (j < length micro_prompts)%nat as Hlt
      by (rewrite <- Hlen; by eapply lookup_lt_Some).
    destruct (lookup_lt_is_Some_2 micro_prompts j Hlt) as [prompt Hj].
    destruct (Hall j prompt Hj) as [e He].
    specialize (Hout j prompt Hj). rewrite He in Hout.
    destruct Hout as [clip_id Hr']. rewrite Hr in Hr'. by injection Hr' as ->.
Qed.

Lemma initial_status_failed_iff_no_clip_started_witness :
  nonempty (ReplicateService.api_token example_service) = true
  ∧ ReplicateService.replicate_installed example_service = true
  ∧ initial_status
      (run second_submission_fails_env
         (ReplicateService.generate_video_clips example_service [] "gen-1"
            "16:9" None three_prompts) empty_world).1 ≠ FAILED.
Proof.
  split; [reflexivity|]. split; [reflexivity|].
  intros Hfailed.
  apply (initial_status_failed_iff_no_clip_started second_submission_fails_env
           empty_world example_service [] "gen-1" "16:9" None three_prompts
           eq_refl eq_refl) in Hfailed.
  destruct Hfailed as [_ Hall].
  destruct (Hall 0%nat "dawn" eq_refl) as [e He]. discriminate He.
Defined.

(** ** A dispatched clip that the provider finished *)

Lemma broadcasts_app h1 h2 : broadcasts (h1 ++ h2) = broadcasts h1 ++ broadcasts h2.
Proof. apply omap_app. Qed.

Lemma webhook_broadcasts_exact E p w :
  broadcasts (history (run E (replicate_webhook p) w).2)
  = broadcasts (history w)
    ++ match job_record w (wp_id p) with
       | Some jd =>
           if String.eqb (wp_status p) "succeeded"
              && truthy (get jd "generation_id")
           then [{| bc_generation_id := get jd "generation_id";
                    bc_clip_id := get_default jd "clip_id" (VStr (wp_id p));
                    bc_thumbnail_url :=
                      (extract_result_from_output (wp_output p)).1;
                    bc_duration := get_default jd "duration" (VNum 5) |}]
           else []
       | None => []
       end.
Proof.
  unfold replicate_webhook.
  destruct (extract_result_from_output (wp_output p)) as [url norm].
  rewrite !run_bind. cbn [run fst snd].
  assert (∀ w', broadcasts (history (run E (webhook_update p url norm) w').2)
                = broadcasts (history w')) as ->.
  { intros w'. unfold webhook_update. cbn [run bind call handle].
    destruct (redis w' !! job_key (wp_id p)) as [[| | | | |jd]|];
      cbn [run bind call handle record snd history];
      rewrite ?broadcasts_app; cbn; by rewrite ?app_nil_r. }
  assert (∀ w' job_id st pr u out err,
            broadcasts (history (run E (publish_job_update job_id st pr u out
                                          err) w').2)
            = broadcasts (history w')) as Hpub.
  { intros. destruct (run_publish E job_id st pr u out err w') as [msg ->].
    unfold record. cbn [snd history]. rewrite !broadcasts_app. cbn.
    by rewrite !app_nil_r. }
  assert (∀ w', broadcasts (history (run E (webhook_import p url) w').2)
                = broadcasts (history w')) as Himp.
  { intros w'. unfold webhook_import. destruct (nonempty url); [|done].
    cbn [run bind call handle].
    destruct (redis w' !! import_marker_key (wp_id p)); [done|].
    cbn [run bind call handle].
    destruct (redis w' !! job_key (wp_id p)) as [[| | | | |jd]|];
      cbn [run bind call handle record snd history];
      rewrite ?broadcasts_app; cbn; rewrite ?app_nil_r; try done.
    destruct (enqueue E _ _);
      cbn [run bind call handle record snd history];
      rewrite ?broadcasts_app; cbn; by rewrite ?app_nil_r. }
  unfold webhook_notify.
  destruct (String.eqb (wp_status p) "succeeded"); cbn [andb].
  - rewrite !run_bind. cbn [fst snd]. rewrite Himp.
    unfold webhook_broadcast, job_record. cbn [run bind call handle].
    rewrite publish_redis.
    destruct (redis w !! job_key (wp_id p)) as [[| | | | |jd]|];
      cbn [run bind call handle record snd history];
      rewrite ?broadcasts_app, ?Hpub; cbn; rewrite ?app_nil_r; try done.
    destruct (truthy (get jd "generation_id"));
      cbn [run bind call handle record snd history];
      rewrite ?broadcasts_app, ?Hpub; cbn; by rewrite ?app_nil_r.
  - replace (match job_record w (wp_id p) with
             | Some _ => [] | None => []
             end) with (@nil clip_broadcast)
      by (by destruct (job_record w (wp_id p))).
    rewrite app_nil_r. repeat case_match; by rewrite ?Hpub.
Qed.



(** ** The self-healing pass of [get_generation] *)

Lemma active_status_cases clip current :
  active_status clip = Some current →
  get clip "status" = VStr current
  ∧ (current = "queued" ∨ current = "processing").
Proof.
  unfold active_status. destruct (get clip "status") as [| | |s| |]; try done.
  destruct (String.eqb_spec s "queued") as [->|_]; cbn [orb].
  { intros [= <-]. eauto. }
  destruct (String.eqb_spec s "processing") as [->|_]; [|done].
  intros [= <-]. eauto.
Qed.

Lemma active_not_completed clip current :
  active_status clip = Some current →
  is_str (get clip "status") "completed" = false.
Proof.
  intros Hactive. apply active_status_cases in Hactive as [-> [->| ->]]; done.
Qed.

Lemma healed_refl clip : healed clip clip.
Proof. by repeat split. Qed.

(** The pass reads Redis and does nothing else. *)
Lemma heal_clip_world E clip current w :
  (run E (heal_clip clip current) w).2 = w.
Proof.
  unfold heal_clip. destruct (negb (truthy _)); [done|].
  cbn [run bind call handle].
  destruct (redis w !! _) as [[| | | | |jd]|]; try done.
  repeat case_match; done.
Qed.

Lemma heal_clips_world E clips w : (run E (heal_clips clips) w).2 = w.
Proof.
  induction clips as [|clip rest IH]; [done|]. cbn [heal_clips].
  destruct (active_status clip) as [current|].
  - rewrite run_bind, heal_clip_world.
    destruct (run E (heal_clip clip current) w).1 as [e|[clip' updated]];
      [done|].
    rewrite run_bind, IH.
    by destruct (run E (heal_clips rest) w).1 as [[rest' updates_made] exn].
  - rewrite run_bind, IH.
    by destruct (run E (heal_clips rest) w).1 as [[rest' updates_made] exn].
Qed.

Lemma heal_clip_healed E clip current w clip' updated :
  active_status clip = Some current →
  (run E (heal_clip clip current) w).1 = inr (clip', updated) →
  healed clip clip' ∧ (updated = false → clip' = clip).
Proof.
  intros Hactive. unfold heal_clip.
  assert (∀ s u, healed clip (if truthy u
                             then dict_set (dict_set clip "status" s)
                                    "video_url" u
                             else dict_set clip "status" s)) as Hset.
  { intros s u. split; [|split].
    - intros k Hs Hu. destruct (truthy u); by rewrite ?dict_get_set_ne.
    - by rewrite Hactive.
    - by rewrite (active_not_completed clip current Hactive). }
  destruct (negb (truthy _)).
  { intros [= <- <-]. split; [apply healed_refl|done]. }
  cbn [run bind call handle].
  destruct (redis w !! _) as [[| | | | |jd]|]; try done;
    [|intros [= <- <-]; split; [apply healed_refl|done]].
  destruct (if is_str (get jd "status") "succeeded" then _ else _)
    as [new_status new_url].
  destruct (negb (new_status =? current))%string; intros [= <- <-].
  - split; [apply Hset|done].
  - split; [apply healed_refl|done].
Qed.

Lemma heal_clips_healed E clips w :
  let r := (run E (heal_clips clips) w).1 in
  Forall2 healed clips r.1.1
  ∧ (r.1.2 = false → r.1.1 = clips).
Proof.
  cbn zeta. induction clips as [|clip rest IH]; [by split; [constructor|]|].
  cbn [heal_clips].
  assert (Forall2 healed rest rest) as Hrest.
  { clear. induction rest; constructor; [apply healed_refl|done]. }
  destruct (active_status clip) as [current|] eqn:Hactive.
  - rewrite run_bind, heal_clip_world.
    pose proof (heal_clip_healed E clip current w) as Hone.
    destruct (run E (heal_clip clip current) w).1 as [e|[clip' updated]].
    { cbn. split; [|done]. constructor; [apply healed_refl|done]. }
    destruct (Hone clip' updated Hactive eq_refl) as [Hhealed Hsame].
    rewrite run_bind.
    destruct (run E (heal_clips rest) w).1 as [[rest' updates_made] exn].
    cbn in *. destruct IH as [IH1 IH2]. split; [by constructor|].
    intros [-> ->]%orb_false_iff. by rewrite Hsame, IH2.
  - rewrite run_bind.
    destruct (run E (heal_clips rest) w).1 as [[rest' updates_made] exn].
    cbn in *. destruct IH as [IH1 IH2].
    split; [constructor; [apply healed_refl|done]|].
    intros ->. by rewrite IH2.
Qed.

Lemma healed_count clips clips' :
  Forall2 healed clips clips' →
  (count_completed clips ≤ count_completed clips')%nat.
Proof.
  unfold count_completed.
  induction 1 as [|clip clip' rest rest' (_ & _ & Hdone) _ IH]; [done|].
  cbn [List.filter].
  destruct (is_str (get clip "status") "completed").
  - rewrite Hdone by done. cbn. lia.
  - destruct (is_str (get clip' "status") "completed"); cbn; lia.
Qed.


(** X19: the clip summaries [get_generation] answers are the stored ones
    healed in place: as many, in the same order, with no key other than
    [status] and [video_url] changed, the clips that were not active
    untouched; the number of completed clips never goes down. *)
Theorem get_generation_heals_in_place E w generation_id stored_status clips :
  let r := (run E (get_generation generation_id stored_status clips) w).1 in
  Forall2 healed clips (gv_video_results r)
  ∧ length (gv_video_results r) = length clips
  ∧ (count_completed clips ≤ count_completed (gv_video_results r))%nat.
Proof.
  cbn zeta.
  assert (Forall2 healed clips
            (gv_video_results
               (run E (get_generation generation_id stored_status clips) w).1))
    as Hhealed; cycle 1.
  { split; [done|]. split; [symmetry; by eapply Forall2_length|].
    by apply healed_count. }
  assert (Forall2 healed clips clips) as Hrefl.
  { clear. induction clips; constructor; [apply healed_refl|done]. }
  unfold get_generation.
  destruct (default QUEUED stored_status); try done.
  destruct (_ && has_active clips); [|done].
  rewrite run_bind.
  pose proof (heal_clips_healed E clips w) as [Hall _].
  destruct (run E (heal_clips clips) w) as [[[clips' updates_made] exn] w1].
  cbn [fst snd] in *.
  destruct exn as [e|]; [done|].
  destruct updates_made; [|done].
  cbn [run bind call handle].
  by destruct (count_completed clips' =? progress_total clips)%nat.
Qed.

Lemma updates_app h1 h2 :
  generation_updates (h1 ++ h2) = generation_updates h1 ++ generation_updates h2.
Proof. apply omap_app. Qed.

Lemma heal_clip_succeeded E clip current w :
  active_status clip = Some current →
  job_succeeded w clip →
  ∃ clip',
    run E (heal_clip clip current) w = (inr (clip', true), w)
    ∧ get clip' "status" = VStr "completed"
    ∧ ∀ prediction_id jd,
        get clip "prediction_id" = VStr prediction_id →
        job_record w prediction_id = Some jd →
        truthy (get jd "result_url") = true →
        get clip' "video_url" = get jd "result_url".
Proof.
  intros Hactive (_ & pid & jd & Hpid & Hne & Hjd & Hst).
  unfold heal_clip. rewrite Hpid.
  assert (truthy (VStr pid) = true) as ->
    by (cbn; by destruct (String.eqb_spec pid "")).
  cbn [negb run bind call handle py_str].
  change ("ai_job:" +:+ pid) with (job_key pid).
  rewrite (job_record_some w pid jd Hjd), Hst.
  change (is_str (VStr "succeeded") "succeeded") with true. cbv iota.
  assert (negb ("completed" =? current)%string = true) as ->
    by (by apply active_status_cases in Hactive as [_ [->| ->]]).
  eexists. split; [done|]. split.
  - destruct (truthy (get jd "result_url"));
      rewrite ?get_set_ne by done; by rewrite get_set_eq.
  - intros pid' jd' Hpid' Hjd' Hurl.
    assert (pid' = pid) as -> by congruence.
    assert (jd' = jd) as -> by congruence.
    by rewrite Hurl, get_set_eq.
Qed.

Lemma heal_clips_succeeded E clips w :
  Forall (job_succeeded w) clips →
  ∃ clips',
    run E (heal_clips clips) w
    = ((clips', match clips with [] => false | _ => true end, None), w)
    ∧ Forall2 (λ clip clip',
                 get clip' "status" = VStr "completed"
                 ∧ ∀ prediction_id jd,
                     get clip "prediction_id" = VStr prediction_id →
                     job_record w prediction_id = Some jd →
                     truthy (get jd "result_url") = true →
                     get clip' "video_url" = get jd "result_url")
        clips clips'.
Proof.
  induction 1 as [|clip rest Hclip _ (rest' & Hrun & Hrest)].
  { exists []. split; [done|constructor]. }
  destruct (proj1 Hclip) as [current Hactive].
  destruct (heal_clip_succeeded E clip current w Hactive Hclip)
    as (clip' & Hone & Hstatus & Hurl).
  exists (clip' :: rest'). split; [|by constructor].
  cbn [heal_clips]. rewrite Hactive, run_bind, Hone. cbn [fst snd].
  rewrite run_bind, Hrun. done.
Qed.

Lemma count_completed_all clips :
  Forall (λ clip, get clip "status" = VStr "completed") clips →
  count_completed clips = length clips.
Proof.
  unfold count_completed. induction 1 as [|clip rest Hclip _ IH]; [done|].
  cbn [List.filter]. rewrite Hclip. cbn. by rewrite IH.
Qed.

Lemma count_completed_active clips :
  Forall (λ clip, is_Some (active_status clip)) clips →
  count_completed clips = 0%nat.
Proof.
  unfold count_completed.
  induction 1 as [|clip rest [current Hclip] _ IH]; [done|].
  cbn [List.filter]. by rewrite (active_not_completed clip current Hclip).
Qed.

(** X20: when every clip of a generation stored as PROCESSING is still
    [queued] or [processing] in its summary, and the Job Store knows every
    prediction as [succeeded], one [get_generation] brings the generation
    to COMPLETED: every clip is answered as [completed], with the stored
    result URL as its video URL, the progress counts every clip, and the
    clip summaries and then the status [completed] are persisted. *)
Theorem succeeded_jobs_complete_generation E w generation_id clips :
  clips ≠ [] →
  Forall (job_succeeded w) clips →
  let r := run E (get_generation generation_id (Some PROCESSING) clips) w in
  gv_status r.1 = COMPLETED
  ∧ Forall2 (λ clip clip',
               get clip' "status" = VStr "completed"
               ∧ ∀ prediction_id jd,
                   get clip "prediction_id" = VStr prediction_id →
                   job_record w prediction_id = Some jd →
                   truthy (get jd "result_url") = true →
                   get clip' "video_url" = get jd "result_url")
      clips (gv_video_results r.1)
  ∧ (∃ p, gv_progress r.1 = Some p
          ∧ steps_completed p = length clips
          ∧ total_steps p = length clips)
  ∧ generation_updates (history r.2)
    = generation_updates (history w)
      ++ [{| gu_generation_id := generation_id; gu_status := "processing";
             gu_video_results := Some (gv_video_results r.1) |};
          {| gu_generation_id := generation_id; gu_status := "completed";
             gu_video_results := None |}].
Proof.
  intros Hne Hall. cbn zeta.
  destruct (heal_clips_succeeded E clips w Hall) as (clips' & Hrun & Hhealed).
  assert (length clips' = length clips) as Hlen
    by (symmetry; by eapply Forall2_length).
  assert (count_completed clips' = length clips) as Hdone.
  { rewrite <- Hlen. apply count_completed_all.
    clear -Hhealed. induction Hhealed as [|???? [? _]]; by constructor. }
  assert (count_completed clips = 0%nat) as Hzero.
  { apply count_completed_active. eapply Forall_impl; [done|]. by intros ? []. }
  assert (progress_total clips = length clips) as Htotal by (by destruct clips).
  assert (has_active clips = true) as Hactive.
  { destruct Hall as [|clip rest [Hclip _] _]; [done|].
    cbn. by rewrite bool_decide_eq_true_2. }
  unfold get_generation. cbn [default]. unfold id. cbv iota.
  rewrite Hzero, Htotal, Hactive.
  assert ((0 =? length clips)%nat = false) as ->
    by (apply Nat.eqb_neq; by destruct clips).
  assert (match clips with [] => false | _ => true end = true) as Hsome
    by (by destruct clips).
  rewrite Hsome. cbn [andb negb]. rewrite run_bind, Hrun, Hsome.
  cbn [fst snd run bind call handle]. rewrite Hdone, Nat.eqb_refl.
  cbn [run bind call handle fst snd gv_status gv_video_results gv_progress].
  split; [done|]. split; [done|]. split; [eauto|].
  unfold record. cbn [history]. rewrite !updates_app. cbn.
  by rewrite <- app_assoc.
Qed.

Lemma succeeded_jobs_complete_generation_witness :
  five_clips "queued" ≠ []
  ∧ gv_status
      (run example_env
         (get_generation "gen-1" (Some PROCESSING) (five_clips "queued"))
         five_succeeded_jobs_world).1 = COMPLETED.
Proof.
  split; [discriminate|].
  refine (proj1 (succeeded_jobs_complete_generation example_env
                   five_succeeded_jobs_world "gen-1" (five_clips "queued")
                   ltac:(discriminate) _)).
  cbv [five_clips map seq].
  repeat (apply Forall_cons_2 || apply Forall_nil_2);
    (split; [eexists; reflexivity|]);
    eexists _, _; (split; [reflexivity|]);
    (split; [discriminate|]); split; reflexivity.
Defined.

(** ** An audio job *)



(** ** What the webhook publishes *)

Lemma run_publish_fields E job_id status_value progress result_url
    result_output error w :
  ∃ message,
    published (history (run E (publish_job_update job_id status_value progress
                                 result_url result_output error) w).2)
    = published (history w)
      ++ [("job:progress:" +:+ job_id, VDict message);
          ("ai_jobs:updates", VDict message)]
    ∧ get message "jobId" = VStr job_id
    ∧ get message "status" = VStr (publish_status_map status_value)
    ∧ get message "progress" = opt_num progress
    ∧ dict_get message "error"
      = (if nonempty error then Some (of_opt error) else None).
Proof.
  unfold publish_job_update, record.
  destruct (nonempty result_url) eqn:Hurl, (is_none result_output) eqn:Hout,
    (nonempty error) eqn:Herr;
    cbn -[publish_status_map String.append]; rewrite ?Hurl, ?Hout;
    cbn -[publish_status_map String.append];
    unfold record; cbn [redis history];
    (eexists; split;
     [rewrite !published_app; cbn; by rewrite ?app_nil_r, <- ?app_assoc|]);
    cbn -[publish_status_map String.append]; done.
Qed.

Lemma webhook_rest_publishes_nothing E p url norm w :
  published (history (run E (webhook_broadcast p url) w).2)
  = published (history w)
  ∧ published (history (run E (webhook_import p url) w).2)
    = published (history w)
  ∧ published (history (run E (webhook_update p url norm) w).2)
    = published (history w).
Proof.
  split; [|split].
  - unfold webhook_broadcast. cbn [run bind call handle].
    destruct (redis w !! job_key (wp_id p)) as [[| | | | |jd]|];
      cbn [run bind call handle record snd history];
      rewrite ?published_app; cbn; rewrite ?app_nil_r; try done.
    destruct (truthy (get jd "generation_id"));
      cbn [run bind call handle record snd history];
      rewrite ?published_app; cbn; by rewrite ?app_nil_r.
  - unfold webhook_import. destruct (nonempty url); [|done].
    cbn [run bind call handle].
    destruct (redis w !! import_marker_key (wp_id p)); [done|].
    cbn [run bind call handle].
    destruct (redis w !! job_key (wp_id p)) as [[| | | | |jd]|];
      cbn [run bind call handle record snd history];
      rewrite ?published_app; cbn; rewrite ?app_nil_r; try done.
    destruct (enqueue E _ _);
      cbn [run bind call handle record snd history];
      rewrite ?published_app; cbn; by rewrite ?app_nil_r.
  - unfold webhook_update. cbn [run bind call handle].
    destruct (redis w !! job_key (wp_id p)) as [[| | | | |jd]|];
      cbn [run bind call handle record snd history];
      rewrite ?published_app; cbn; by rewrite ?app_nil_r.
Qed.


(** ** A webhook after the status query *)

(** X23: when a status query with [auto_import] learns from the provider
    that a video job with a stale record succeeded with a result URL, and
    the import queue takes the job, it makes one video import and sets the
    Dedup Marker; a webhook for the job that is handled after the query
    has returned starts no second import, whatever its payload. *)
Theorem query_then_webhook_imports_once E job_id w jd prediction p i :
  load_cached (redis w !! job_key job_id) = inr (Some jd) →
  hashable (pv_status (cached_view (Some jd))) = true →
  cache_is_stale (Some jd) = true →
  dict_get jd "generation_type" = Some (VStr "video") →
  marked w job_id = false →
  nonempty (environ E "REPLICATE_API_TOKEN") = true →
  predictions_get E (length (provider_queries (history w))) job_id
  = inr prediction →
  pred_status prediction = "succeeded" →
  nonempty (extract_result_from_output (pred_output prediction)).1 = true →
  (∀ req, enqueue E (length (enqueue_attempts (history w))) req = inr i) →
  wp_id p = job_id →
  let w1 := (run E (get_ai_job_status job_id true) w).2 in
  let w2 := (run E (replicate_webhook p) w1).2 in
  (∃ req,
     enqueue_attempts (history w1) = enqueue_attempts (history w) ++ [req]
     ∧ imp_kind req = VideoImport
     ∧ imp_url req
       = of_opt (extract_result_from_output (pred_output prediction)).1)
  ∧ marked w1 job_id = true
  ∧ enqueue_attempts (history w2) = enqueue_attempts (history w1).
Proof.
  intros Hload Hhash Hstale Hvideo Hmark Htoken Hget Hsucc Hurl Hq Hid.
  cbn zeta.
  assert ((∃ req,
             enqueue_attempts
               (history (run E (get_ai_job_status job_id true) w).2)
             = enqueue_attempts (history w) ++ [req]
             ∧ imp_kind req = VideoImport
             ∧ imp_url req
               = of_opt (extract_result_from_output (pred_output prediction)).1)
          ∧ marked (run E (get_ai_job_status job_id true) w).2 job_id = true)
    as [Hone Hmarked].
  { unfold get_ai_job_status. rewrite run_bind.
    rewrite (lookup_refreshed E job_id w (Some jd) Hload Hhash prediction
               Hstale Htoken Hget).
    cbn [fst snd].
    set (merged := poll_merge (Some jd) job_id prediction (now E)).
    assert (get_default merged "generation_type" (VStr "video") = VStr "video")
      as Hgt.
    { unfold get_default. subst merged.
      rewrite poll_merge_other;
        [change (default [] (Some jd)) with jd; by rewrite Hvideo|].
      unfold poll_written. set_solver. }
    unfold refreshed_view.
    destruct (extract_result_from_output (pred_output prediction))
      as [url norm].
    cbn [fst] in *.
    assert (truthy (of_opt url) = true) as Htruthy by (by destruct url).
    unfold poll_respond. rewrite run_bind.
    cbn [pv_status pv_result_url]. rewrite Hsucc, Htruthy.
    change (is_str (VStr (poll_status_map "succeeded")) "succeeded") with true.
    cbn [andb]. unfold poll_auto_import.
    cbn [run bind call handle redis pv_job_data pv_result_url].
    rewrite lookup_insert_ne by (symmetry; apply marker_key_ne).
    apply marked_lookup in Hmark. rewrite Hmark, Hgt.
    change (is_str (VStr "video") "video") with true.
    cbn [run bind call handle record history redis].
    rewrite !attempts_app. cbn [enqueue_attempts omap].
    rewrite !app_nil_r, Hq.
    unfold marked.
    destruct merged as [|kv rest];
      cbn [run bind call handle record history redis fst snd];
      rewrite ?attempts_app; cbn [enqueue_attempts omap];
      rewrite ?app_nil_r;
      (split; [eexists; split; [done|]; done|]).
    - by rewrite lookup_insert_eq.
    - rewrite lookup_insert_ne by (symmetry; apply marker_key_ne).
      by rewrite lookup_insert_eq. }
  split; [done|]. split; [done|].
  unfold replicate_webhook.
  destruct (extract_result_from_output (wp_output p)) as [url' norm'].
  rewrite !run_bind. cbn [run fst snd].
  rewrite (proj1 (update_quiet _ _ _ _ _)), notify_attempts_exact.
  rewrite Hid, Hmarked, andb_false_r.
  destruct (job_record _ job_id); by rewrite app_nil_r.
Qed.

Lemma query_then_webhook_imports_once_witness :
  load_cached (redis example_world !! job_key "job-1")
  = inr (Some example_record)
  ∧ marked example_world "job-1" = false
  ∧ enqueue_attempts (history
      (run example_env (replicate_webhook succeeded_payload)
         (run example_env (get_ai_job_status "job-1" true) example_world).2).2)
    = enqueue_attempts (history
        (run example_env (get_ai_job_status "job-1" true) example_world).2).
Proof.
  split; [reflexivity|]. split; [reflexivity|].
  exact (proj2 (proj2 (query_then_webhook_imports_once example_env "job-1"
                         example_world example_record
                         {| pred_id := "job-1"; pred_status := "succeeded";
                            pred_output := VStr "http://x/out.mp4";
                            pred_error := None |}
                         succeeded_payload "rq-0" eq_refl eq_refl eq_refl
                         eq_refl eq_refl eq_refl eq_refl eq_refl eq_refl
                         (λ _, eq_refl) eq_refl))).
Defined.
